(** * inventory.py: a shallow embedding and its verified properties

    The program keeps a global list of [Shoe] objects, loads it from
    [inventory.txt], lets an operator capture, search and restock shoes, and
    rewrites one quantity in the file after a restock.

    Modelling conventions.
    - A Python [str] is a list of characters; characters are the code points
      below 256 (the type [ascii]), which covers every character the program
      itself produces.
    - A Python [int] is a [Z]; the cap that recent interpreters put on the
      number of digits converted between [int] and [str] is left out.  A
      [float] is kept as the decimal number its literal denotes (see
      [pyfloat]).
    - The global [shoes_list], the backing file, the operator's pending input
      lines and the printed messages form an explicit [World] that every
      operation transforms.  A record of the list stands for one [Shoe]
      object; the program never puts one object into the list twice.
    - The process runs on a POSIX system: text written with a line feed
      reaches the file as it is.  Opening the file for writing either
      succeeds, and the whole new content is written, or is denied. *)

From Stdlib Require Import Ascii String.
From Stdlib Require Import List ZArith Lia Bool Arith.
Import ListNotations.

(** ** Text *)

Module Text.

Definition str := list ascii.

Definition txt (s : string) : str := list_ascii_of_string s.

Definition nl : ascii := "010"%char.
Definition cr : ascii := "013"%char.
Definition comma : ascii := ","%char.

Definition code_of (c : ascii) : N := N_of_ascii c.

(** [str.isspace] on one character: TAB..CR, FS..US, space, NEL and NBSP. *)
Definition isspace (c : ascii) : bool :=
  let n := code_of c in
  ((9 <=? n) && (n <=? 13) || (28 <=? n) && (n <=? 32)
   || (n =? 133) || (n =? 160))%N.

Fixpoint lstrip (s : str) : str :=
  match s with
  | [] => []
  | c :: r => if isspace c then lstrip r else s
  end.

Definition rstrip (s : str) : str := rev (lstrip (rev s)).

(** [s.strip()] *)
Definition strip (s : str) : str := rstrip (lstrip s).

Fixpoint lstrip_char (x : ascii) (s : str) : str :=
  match s with
  | [] => []
  | c :: r => if Ascii.eqb c x then lstrip_char x r else s
  end.

(** [s.rstrip(x)] for a one-character argument. *)
Definition rstrip_char (x : ascii) (s : str) : str :=
  rev (lstrip_char x (rev s)).

(** [s.endswith(x)] for a one-character argument. *)
Definition endswith (x : ascii) (s : str) : bool :=
  match rev s with
  | c :: _ => Ascii.eqb c x
  | [] => false
  end.

(** [s.split(sep)] for a one-character separator: never the empty list. *)
Fixpoint split (sep : ascii) (s : str) : list str :=
  match s with
  | [] => [[]]
  | c :: r =>
      if Ascii.eqb c sep then [] :: split sep r
      else match split sep r with
           | p :: ps => (c :: p) :: ps
           | [] => [[c]]
           end
  end.

(** [sep.join(parts)] *)
Fixpoint join (sep : ascii) (parts : list str) : str :=
  match parts with
  | [] => []
  | [p] => p
  | p :: ps => p ++ sep :: join sep ps
  end.

(** [c.lower()] on one character: A-Z and the accented capitals of Latin-1. *)
Definition lower_char (c : ascii) : ascii :=
  let n := code_of c in
  if ((65 <=? n) && (n <=? 90)
      || (192 <=? n) && (n <=? 222) && negb (n =? 215))%N
  then ascii_of_N (n + 32) else c.

Definition lower (s : str) : str := map lower_char s.

Definition str_eqb (a b : str) : bool :=
  if list_eq_dec ascii_dec a b then true else false.

(** [f.readlines()] of a file opened in text mode with the default
    [newline=None]: the line ends ["\n"], ["\r"] and ["\r\n"] all arrive as
    ["\n"], and each line keeps its end. *)
Fixpoint readlines (s : str) : list str :=
  match s with
  | [] => []
  | c :: r =>
      if Ascii.eqb c nl then [nl] :: readlines r
      else if Ascii.eqb c cr then
        match r with
        | d :: r' => if Ascii.eqb d nl then [nl] :: readlines r'
                     else [nl] :: readlines r
        | [] => [[nl]]
        end
      else match readlines r with
           | l :: ls =>
               match r with
               | [] => [[c]]
               | _ :: _ => (c :: l) :: ls
               end
           | [] => [[c]]
           end
  end.

(** [f.writelines(lines)] *)
Definition writelines (lines : list str) : str := concat lines.

End Text.
Import Text.

(** ** Numbers *)

Module Num.

Local Open Scope Z_scope.

Definition is_digit (c : ascii) : bool :=
  ((48 <=? code_of c) && (code_of c <=? 57))%N.

Definition digit_val (c : ascii) : Z := Z.of_N (code_of c) - 48.

Definition underscore : ascii := "_"%char.

(** The rest of a [digitpart], after a digit: [(["_"] digit)*], up to the
    end of the text. *)
Fixpoint digits_from (s : str) (acc : Z) : option Z :=
  match s with
  | [] => Some acc
  | c :: r =>
      if is_digit c then digits_from r (10 * acc + digit_val c)
      else if Ascii.eqb c underscore then
        match r with
        | d :: r' =>
            if is_digit d then digits_from r' (10 * acc + digit_val d)
            else None
        | [] => None
        end
      else None
  end.

Definition digitpart (s : str) : option Z :=
  match s with
  | c :: r => if is_digit c then digits_from r (digit_val c) else None
  | [] => None
  end.

(** [int(s)] for a text [s] without surrounding whitespace (the program
    trims every text it converts; [int] trims again, to no effect):
    [Some n] for the value, [None] for [ValueError]. *)
Definition py_int (s : str) : option Z :=
  match s with
  | c :: r =>
      if Ascii.eqb c "+" then digitpart r
      else if Ascii.eqb c "-" then option_map Z.opp (digitpart r)
      else digitpart s
  | [] => None
  end.

(** [str(n)] for an [int]. *)
Fixpoint digits_of_pos (fuel : nat) (n : Z) (acc : str) : str :=
  match fuel with
  | O => acc
  | S fuel' =>
      let d := ascii_of_N (Z.to_N (n mod 10) + 48) in
      if n <? 10 then d :: acc
      else digits_of_pos fuel' (n / 10) (d :: acc)
  end.

Definition str_of_nonneg (n : Z) : str :=
  digits_of_pos (S (Z.to_nat (Z.log2 n))) n [].

Definition str_of_int (n : Z) : str :=
  if n <? 0 then "-"%char :: str_of_nonneg (- n) else str_of_nonneg n.

(** A [float] as the number its literal denotes: not-a-number, an infinity,
    or [(-1)^neg * mant * 10^exp10].  Python rounds that number to the
    nearest binary64 value; the comparison [float_ge0] below accounts for
    it. *)
Inductive pyfloat :=
| FNan
| FInf (neg : bool)
| FNum (neg : bool) (mant : Z) (exp10 : Z).

(** The longest [digitpart] at the head of a text: its digits' value, how
    many digits, and the rest. *)
Fixpoint take_digits (s : str) (acc : Z) (n : Z) : Z * Z * str :=
  match s with
  | [] => (acc, n, [])
  | c :: r =>
      if is_digit c then take_digits r (10 * acc + digit_val c) (n + 1)
      else if Ascii.eqb c underscore then
        match r with
        | d :: r' =>
            if is_digit d
            then take_digits r' (10 * acc + digit_val d) (n + 1)
            else (acc, n, s)
        | [] => (acc, n, s)
        end
      else (acc, n, s)
  end.

Definition take_digitpart (s : str) (acc : Z) : option (Z * Z * str) :=
  match s with
  | c :: r =>
      if is_digit c then Some (take_digits r (10 * acc + digit_val c) 1)
      else None
  | [] => None
  end.

(** [number ::= [digitpart] "." digitpart | digitpart ["."]]: the value of
    all digits read as one integer, the count of fraction digits, the
    rest. *)
Definition take_number (s : str) : option (Z * Z * str) :=
  match take_digitpart s 0 with
  | Some (ip, _, rest) =>
      match rest with
      | c :: rest' =>
          if Ascii.eqb c "." then
            match take_digitpart rest' ip with
            | Some (m, k, rest'') => Some (m, k, rest'')
            | None => Some (ip, 0, rest')
            end
          else Some (ip, 0, rest)
      | [] => Some (ip, 0, [])
      end
  | None =>
      match s with
      | c :: rest' =>
          if Ascii.eqb c "." then take_digitpart rest' 0 else None
      | [] => None
      end
  end.

(** [exponent ::= ("e" | "E") [sign] digitpart], or nothing, up to the end. *)
Definition exponent (s : str) : option Z :=
  match s with
  | [] => Some 0
  | c :: r =>
      if Ascii.eqb (lower_char c) "e" then py_int r else None
  end.

Definition unsigned_float (neg : bool) (s : str) : option pyfloat :=
  let l := lower s in
  if str_eqb l (txt "inf") || str_eqb l (txt "infinity") then Some (FInf neg)
  else if str_eqb l (txt "nan") then Some FNan
  else
    match take_number s with
    | Some (m, k, rest) =>
        match exponent rest with
        | Some e => Some (FNum neg m (e - k))
        | None => None
        end
    | None => None
    end.

(** [float(s)] for a text [s] without surrounding whitespace: [Some x] for
    the value, [None] for [ValueError]. *)
Definition py_float (s : str) : option pyfloat :=
  match s with
  | c :: r =>
      if Ascii.eqb c "+" then unsigned_float false r
      else if Ascii.eqb c "-" then unsigned_float true r
      else unsigned_float false s
  | [] => None
  end.


End Num.
Import Num.

(** ** The data model *)

(** [class Shoe] *)
Record Shoe := mkShoe {
  country : str;
  code : str;
  product : str;
  cost : pyfloat;
  quantity : Z
}.

(** The lines the program prints with [print] (the prompts of [input] are
    not recorded). *)
Inductive msg :=
| EmptyFile
| SkipInvalidLine (line_no : nat) (line : str)
| SkipBadNumber (line_no : nat) (line : str)
| Loaded (count : nat)
| ReadNotFound
| ReadPermissionDenied
| ReadUnexpected
| InvalidCost
| InvalidQuantity
| ShoeCaptured
| NoShoesLoaded
| LowestStockItem (s : Shoe)
| RestockCancelled
| GreaterThanZero
| ValidWholeNumber
| UpdateNotFound
| UpdatePermissionDenied
| UpdateError
| WarningNotUpdated
| StockUpdated (s : Shoe).

(** What [open(INVENTORY_FILE, ...)] meets: no file ([FileNotFoundError]),
    a file that may not be read ([PermissionError]), a file whose opening or
    reading fails in another way, or a file with a decoded content that may
    or may not be opened for writing. *)
Inductive file_state :=
| Missing
| Denied
| Faulty
| Readable (text : str) (writable : bool).

Record World := mkWorld {
  shoes_list : list Shoe;
  inventory : file_state;
  stdin : list str;
  stdout : list msg
}.

(** An operation returns, or [input] finds the operator's input at its end
    and raises [EOFError], which no operation catches. *)
Inductive outcome (A : Type) :=
| Returned (a : A) (w : World)
| EOFError (w : World).

Arguments Returned {A} a w.
Arguments EOFError {A} w.

Definition print (m : msg) (w : World) : World :=
  mkWorld (shoes_list w) (inventory w) (stdin w) (stdout w ++ [m]).

(** ** read_shoes_data *)

(** The body of [for line_no, line in enumerate(lines[1:], start=2)]. *)
Fixpoint load_loop (lines : list str) (line_no : nat)
    (shoes : list Shoe) (out : list msg) : list Shoe * list msg :=
  match lines with
  | [] => (shoes, out)
  | line0 :: rest =>
      let line := strip line0 in
      match line with
      | [] => load_loop rest (S line_no) shoes out
      | _ :: _ =>
          match map strip (split comma line) with
          | [country; code; product; cost_str; qty_str] =>
              match py_float cost_str, py_int qty_str with
              | Some cost, Some quantity =>
                  load_loop rest (S line_no)
                    (shoes ++ [mkShoe country code product cost quantity]) out
              | _, _ =>
                  load_loop rest (S line_no) shoes
                    (out ++ [SkipBadNumber line_no line])
              end
          | _ =>
              load_loop rest (S line_no) shoes
                (out ++ [SkipInvalidLine line_no line])
          end
      end
  end.

Definition read_shoes_data (w : World) : outcome unit :=
  let w := mkWorld [] (inventory w) (stdin w) (stdout w) in
  match inventory w with
  | Missing => Returned tt (print ReadNotFound w)
  | Denied => Returned tt (print ReadPermissionDenied w)
  | Faulty => Returned tt (print ReadUnexpected w)
  | Readable text _ =>
      match readlines text with
      | [] => Returned tt (print EmptyFile w)
      | _ :: data =>
          let (shoes, out) := load_loop data 2 (shoes_list w) (stdout w) in
          Returned tt
            (mkWorld shoes (inventory w) (stdin w)
               (out ++ [Loaded (length shoes)]))
      end
  end.

(** ** capture_shoes *)

(** [while True: try: cost = float(input("Cost: ").strip()) ...] *)
Fixpoint ask_cost (inp : list str) (out : list msg)
    : option pyfloat * list str * list msg :=
  match inp with
  | [] => (None, [], out)
  | l :: rest =>
      match py_float (strip l) with
      | Some c => (Some c, rest, out)
      | None => ask_cost rest (out ++ [InvalidCost])
      end
  end.

(** [while True: try: quantity = int(input("Quantity: ").strip()) ...] *)
Fixpoint ask_quantity (inp : list str) (out : list msg)
    : option Z * list str * list msg :=
  match inp with
  | [] => (None, [], out)
  | l :: rest =>
      match py_int (strip l) with
      | Some q => (Some q, rest, out)
      | None => ask_quantity rest (out ++ [InvalidQuantity])
      end
  end.

Definition capture_shoes (w : World) : outcome unit :=
  let eof inp out := EOFError (mkWorld (shoes_list w) (inventory w) inp out) in
  match stdin w with
  | l1 :: l2 :: l3 :: inp =>
      let country := strip l1 in
      let code := strip l2 in
      let product := strip l3 in
      match ask_cost inp (stdout w) with
      | (Some cost, inp, out) =>
          match ask_quantity inp out with
          | (Some quantity, inp, out) =>
              Returned tt
                (mkWorld
                   (shoes_list w ++ [mkShoe country code product cost quantity])
                   (inventory w) inp (out ++ [ShoeCaptured]))
          | (None, inp, out) => eof inp out
          end
      | (None, inp, out) => eof inp out
      end
  | _ => eof [] (stdout w)
  end.

(** ** _update_quantity_in_file *)

Definition with_newline (line : str) : str :=
  if endswith nl line then line else line ++ [nl].

(** The body of [for line in lines[1:]], on [updated_lines] and [updated]. *)
Fixpoint update_loop (target_code : str) (new_quantity : Z)
    (lines : list str) (updated_lines : list str) (updated : bool)
    : list str * bool :=
  match lines with
  | [] => (updated_lines, updated)
  | line :: rest =>
      let raw := rstrip_char nl line in
      match strip raw with
      | [] =>
          update_loop target_code new_quantity rest
            (updated_lines ++ [line]) updated
      | _ :: _ =>
          match map strip (split comma raw) with
          | [country; code; product; cost; quantity] =>
              if str_eqb code target_code then
                update_loop target_code new_quantity rest
                  (updated_lines ++
                     [join comma [country; code; product; cost;
                                  str_of_int new_quantity] ++ [nl]])
                  true
              else
                update_loop target_code new_quantity rest
                  (updated_lines ++ [with_newline line]) updated
          | _ =>
              update_loop target_code new_quantity rest
                (updated_lines ++ [with_newline line]) updated
          end
      end
  end.

(** The function on the file and the printed messages; it returns its
    [bool] first. *)
Definition _update_quantity_in_file (target_code : str) (new_quantity : Z)
    (f : file_state) (out : list msg) : bool * file_state * list msg :=
  match f with
  | Missing => (false, f, out ++ [UpdateNotFound])
  | Denied => (false, f, out ++ [UpdatePermissionDenied])
  | Faulty => (false, f, out ++ [UpdateError])
  | Readable text writable =>
      match readlines text with
      | [] => (false, f, out)
      | header :: data =>
          let (updated_lines, updated) :=
            update_loop target_code new_quantity data [header] false in
          if negb updated then (false, f, out)
          else if writable
               then (true, Readable (writelines updated_lines) writable, out)
               else (false, f, out ++ [UpdatePermissionDenied])
      end
  end.

(** ** re_stock *)

(** [min(shoes_list, key=lambda s: s.quantity)] as a position: the scan
    keeps the first item and replaces it only by a strictly smaller one. *)
Fixpoint min_scan (l : list Shoe) (i best : nat) (best_q : Z) : nat :=
  match l with
  | [] => best
  | s :: r =>
      if (quantity s <? best_q)%Z then min_scan r (S i) i (quantity s)
      else min_scan r (S i) best best_q
  end.

Definition min_index (l : list Shoe) : nat :=
  match l with
  | [] => 0
  | s :: r => min_scan r 1 0 (quantity s)
  end.

(** [shoe.quantity += k] on the object at position [i] of the list. *)
Fixpoint add_quantity (i : nat) (k : Z) (l : list Shoe) : list Shoe :=
  match l, i with
  | [], _ => []
  | s :: r, O =>
      mkShoe (country s) (code s) (product s) (cost s) (quantity s + k) :: r
  | s :: r, S i' => s :: add_quantity i' k r
  end.

(** [while True: try: add_qty = int(input(...).strip()) ...] *)
Fixpoint ask_units (inp : list str) (out : list msg)
    : option Z * list str * list msg :=
  match inp with
  | [] => (None, [], out)
  | l :: rest =>
      match py_int (strip l) with
      | Some n =>
          if (n <=? 0)%Z then ask_units rest (out ++ [GreaterThanZero])
          else (Some n, rest, out)
      | None => ask_units rest (out ++ [ValidWholeNumber])
      end
  end.

Definition re_stock (w : World) : outcome unit :=
  match shoes_list w with
  | [] => Returned tt (print NoShoesLoaded w)
  | lowest0 :: _ =>
      let i := min_index (shoes_list w) in
      let lowest_shoe := nth i (shoes_list w) lowest0 in
      let out := stdout w ++ [LowestStockItem lowest_shoe] in
      match stdin w with
      | [] => EOFError (mkWorld (shoes_list w) (inventory w) [] out)
      | answer :: inp =>
          let choice := lower (strip answer) in
          if negb (str_eqb choice (txt "y")) then
            Returned tt
              (mkWorld (shoes_list w) (inventory w) inp
                 (out ++ [RestockCancelled]))
          else
            match ask_units inp out with
            | (None, inp, out) =>
                EOFError (mkWorld (shoes_list w) (inventory w) inp out)
            | (Some add_qty, inp, out) =>
                let shoes := add_quantity i add_qty (shoes_list w) in
                let lowest_shoe := nth i shoes lowest0 in
                let '(updated, file, out) :=
                  _update_quantity_in_file (code lowest_shoe)
                    (quantity lowest_shoe) (inventory w) out in
                let out :=
                  if updated then out else out ++ [WarningNotUpdated] in
                Returned tt
                  (mkWorld shoes file inp (out ++ [StockUpdated lowest_shoe]))
            end
      end
  end.

(** ** search_shoe *)

(** [for shoe in shoes_list: if shoe.code == code: return shoe] *)
Fixpoint scan_code (c : str) (l : list Shoe) : option Shoe :=
  match l with
  | [] => None
  | shoe :: r => if str_eqb (code shoe) c then Some shoe else scan_code c r
  end.

Definition search_shoe (w : World) : outcome (option Shoe) :=
  match shoes_list w with
  | [] => Returned None (print NoShoesLoaded w)
  | _ :: _ =>
      match stdin w with
      | [] => EOFError w
      | l :: inp =>
          Returned (scan_code (strip l) (shoes_list w))
            (mkWorld (shoes_list w) (inventory w) inp (stdout w))
      end
  end.

(** ** The end-to-end scenario of the specification *)

Definition demo_text : str :=
  txt "country,code,product,cost,quantity" ++ [nl]
  ++ txt "USA,SH001,AirMax,120.5,3" ++ [nl]
  ++ txt "USA,SH002,Runner,80,50" ++ [nl].

Definition demo_world (inp : list str) : World :=
  mkWorld [] (Readable demo_text true) inp [].

Definition run2 (f g : World -> outcome unit) (w : World) : outcome unit :=
  match f w with
  | Returned _ w' => g w'
  | EOFError w' => EOFError w'
  end.

(** ** The vocabulary of the properties *)

(** A text is trimmed when neither end is whitespace. *)
Definition trimmed (s : str) : Prop :=
  lstrip s = s /\ lstrip (rev s) = rev s.

(** A character that is no whitespace, no comma and no line end. *)
Definition plain (c : ascii) : Prop :=
  isspace c = false /\ c <> comma /\ c <> nl.


(** The comma-separated fields of a line of the file, trimmed. *)
Definition fields (line : str) : list str :=
  map strip (split comma (rstrip_char nl line)).

Definition blank (line : str) : bool :=
  match strip (rstrip_char nl line) with
  | [] => true
  | _ :: _ => false
  end.

(** A data line: not blank, five fields. *)
Definition data_line (line : str) : option (list str) :=
  if blank line then None
  else match fields line with
       | [_; _; _; _; _] => Some (fields line)
       | _ => None
       end.

(** The code field of a data line. *)
Definition code_field (line : str) : option str :=
  match data_line line with
  | Some fs => nth_error fs 1
  | None => None
  end.

(** A data line whose code field is the target code. *)
Definition matches (target_code : str) (line : str) : bool :=
  match code_field line with
  | Some c => str_eqb c target_code
  | None => false
  end.

(** The text a matching line is replaced by. *)
Definition with_quantity (fs : list str) (new_quantity : Z) : str :=
  join comma (firstn 4 fs ++ [str_of_int new_quantity]) ++ [nl].

(** What one round of the loop appends to [updated_lines]. *)
Definition rewrite_line (target_code : str) (new_quantity : Z) (line : str)
    : str :=
  match data_line line with
  | Some fs =>
      if matches target_code line then with_quantity fs new_quantity
      else with_newline line
  | None => if blank line then line else with_newline line
  end.









(** Position [m] holds a record of least quantity, and no earlier position
    does. *)
Definition first_min (l : list Shoe) (m : nat) : Prop :=
  exists sm,
    nth_error l m = Some sm
    /\ forall j s, nth_error l j = Some s ->
         (quantity sm <= quantity s)%Z
         /\ (j < m -> (quantity sm < quantity s)%Z).





Definition shoe1 : Shoe :=
  mkShoe (txt "USA") (txt "SH001") (txt "AirMax") (FNum false 1205 (-1)) 3.

Definition shoe2 : Shoe :=
  mkShoe (txt "USA") (txt "SH002") (txt "Runner") (FNum false 80 0) 50.



(** File Codec Decode, in the words of the specification: a blank line is
    passed over, a line without exactly five comma-separated fields or with
    a cost or quantity that is no number is skipped with a diagnostic, any
    other line is a record of its trimmed fields. *)
Inductive decoded :=
| Blank
| WrongFieldCount
| BadNumber
| Rec (s : Shoe).

Definition decode (line : str) : decoded :=
  match strip line with
  | [] => Blank
  | _ :: _ =>
      match split comma (strip line) with
      | [f1; f2; f3; f4; f5] =>
          match py_float (strip f4), py_int (strip f5) with
          | Some c, Some q => Rec (mkShoe (strip f1) (strip f2) (strip f3) c q)
          | _, _ => BadNumber
          end
      | _ => WrongFieldCount
      end
  end.


(** The records of the valid lines, in the order of the lines. *)
Fixpoint records (data : list str) : list Shoe :=
  match data with
  | [] => []
  | line :: rest =>
      match decode line with
      | Rec s => s :: records rest
      | _ => records rest
      end
  end.

(** The diagnostics of the malformed lines, each with its line number. *)
Fixpoint diagnostics (line_no : nat) (data : list str) : list msg :=
  match data with
  | [] => []
  | line :: rest =>
      match decode line with
      | WrongFieldCount =>
          SkipInvalidLine line_no (strip line) :: diagnostics (S line_no) rest
      | BadNumber =>
          SkipBadNumber line_no (strip line) :: diagnostics (S line_no) rest
      | _ => diagnostics (S line_no) rest
      end
  end.

(** The file has no line to offer: it cannot be opened or read, or it is
    empty. *)
Definition no_lines (f : file_state) : Prop :=
  match f with
  | Readable text _ => readlines text = []
  | _ => True
  end.

Definition load_diagnostic (f : file_state) : msg :=
  match f with
  | Missing => ReadNotFound
  | Denied => ReadPermissionDenied
  | Faulty => ReadUnexpected
  | Readable _ _ => EmptyFile
  end.

(** The data lines of the file, the header left out. *)
Definition file_data (f : file_state) : list str :=
  match f with
  | Readable text _ => tl (readlines text)
  | _ => []
  end.

(** A file whose data lines are valid, blank, short, and with a bad
    number. *)
Definition mixed_text : str :=
  txt "SH000,not,a,header,1" ++ [nl]
  ++ txt " USA , SH001 , AirMax , 120.5 , 3 " ++ [nl]
  ++ [nl]
  ++ txt "USA,SH002,Runner" ++ [nl]
  ++ txt "USA,SH003,Racer,dear,5" ++ [nl]
  ++ txt "USA,SH002,Runner,80,50".




(** ** The vocabulary of the further properties *)

(** A text of whitespace only. *)
Definition all_space (s : str) : Prop := Forall (fun c => isspace c = true) s.

(** The trimmed comma-separated fields of any text. *)
Definition line_fields (s : str) : list str := map strip (split comma s).

(** A text without a line end inside. *)
Definition body_ok (s : str) : Prop := Forall (fun c => c <> nl /\ c <> cr) s.

(** A line with its line end, and a last line without one. *)
Definition full_line (l : str) : Prop :=
  exists b, l = b ++ [nl] /\ body_ok b.

Definition open_line (l : str) : Prop := l <> [] /\ body_ok l.

(** The lines of a text file: all full, but the last which may be open. *)
Fixpoint file_lines (ls : list str) : Prop :=
  match ls with
  | [] => True
  | l :: rest =>
      match rest with
      | [] => full_line l \/ open_line l
      | _ :: _ => full_line l /\ file_lines rest
      end
  end.

(** [f] on the last item of a list. *)
Fixpoint map_last {A : Type} (f : A -> A) (l : list A) : list A :=
  match l with
  | [] => []
  | x :: r =>
      match r with
      | [] => [f x]
      | _ :: _ => x :: map_last f r
      end
  end.

(** What Load makes of the trimmed fields of a line that is not blank. *)
Definition decode_fields (fs : list str) : decoded :=
  match fs with
  | [f1; f2; f3; f4; f5] =>
      match py_float f4, py_int f5 with
      | Some c, Some q => Rec (mkShoe f1 f2 f3 c q)
      | _, _ => BadNumber
      end
  | _ => WrongFieldCount
  end.



(** The sum of the quantities of a list. *)
Definition total_quantity (l : list Shoe) : Z :=
  fold_right (fun s t => (quantity s + t)%Z) 0%Z l.

(** What of a record a restock leaves alone. *)
Definition identity (s : Shoe) : str * str * str * pyfloat :=
  (country s, code s, product s, cost s).

(** A text that can be a field of a line: trimmed and free of commas. *)
Definition field_text (s : str) : Prop := strip s = s /\ ~ In comma s.




(** The list and the world right after Load of the scenario's file. *)
Definition loaded_world (inp : list str) : World :=
  mkWorld [shoe1; shoe2] (Readable demo_text true) inp [Loaded 2].

(** That world after a confirmed restock by ten. *)
Definition restocked_world : World :=
  Eval vm_compute in
    match re_stock (loaded_world [txt "y"; txt "10"]) with
    | Returned _ w => w
    | EOFError w => w
    end.

(** ** The display operations *)

(** What the display operations and the menu print: a message of the core
    operations, or a line of their own.  A value line stands for
    [cost * quantity] by its two factors. *)
Inductive display :=
| Note (m : msg)
| MenuText
| AllShoesHeader
| ShoeLine (s : Shoe)
| ValuePerItemHeader
| ValueLine (product code : str) (cost : pyfloat) (quantity : Z)
| ForSaleHeader
| ShoeFound (s : Shoe)
| ShoeNotFound
| Goodbye
| InvalidOption.

(** [view_all] *)
Definition view_all (shoes : list Shoe) : list display :=
  match shoes with
  | [] => [Note NoShoesLoaded]
  | _ :: _ => AllShoesHeader :: map ShoeLine shoes
  end.

(** [value_per_item] *)
Definition value_per_item (shoes : list Shoe) : list display :=
  match shoes with
  | [] => [Note NoShoesLoaded]
  | _ :: _ =>
      ValuePerItemHeader
      :: map (fun shoe =>
                ValueLine (product shoe) (code shoe) (cost shoe)
                  (quantity shoe))
           shoes
  end.

(** [max(shoes_list, key=lambda s: s.quantity)] as a position: the scan
    keeps the first item and replaces it only by a strictly greater one. *)
Fixpoint max_scan (l : list Shoe) (i best : nat) (best_q : Z) : nat :=
  match l with
  | [] => best
  | s :: r =>
      if (best_q <? quantity s)%Z then max_scan r (S i) i (quantity s)
      else max_scan r (S i) best best_q
  end.

Definition max_index (l : list Shoe) : nat :=
  match l with
  | [] => 0
  | s :: r => max_scan r 1 0 (quantity s)
  end.

(** [highest_qty] *)
Definition highest_qty (shoes : list Shoe) : list display :=
  match shoes with
  | [] => [Note NoShoesLoaded]
  | first :: _ => [ForSaleHeader; ShoeLine (nth (max_index shoes) shoes first)]
  end.

(** Position [m] holds a record of greatest quantity, and no earlier
    position does. *)
Definition first_max (l : list Shoe) (m : nat) : Prop :=
  exists sm,
    nth_error l m = Some sm
    /\ forall j s, nth_error l j = Some s ->
         (quantity s <= quantity sm)%Z
         /\ (j < m -> (quantity s < quantity sm)%Z).

(** ** main *)

(** The state of a run of [main]: the list, the file, the input still to
    come and all that was printed. *)
Record Console := mkConsole {
  c_shoes : list Shoe;
  c_file : file_state;
  c_input : list str;
  c_screen : list display
}.

(** How [main] ends: by [break] after the option 0, or by the [EOFError]
    of an [input] that finds no line. *)
Inductive finish :=
| Exit
| InputEnded.

Definition show (ds : list display) (c : Console) : Console :=
  mkConsole (c_shoes c) (c_file c) (c_input c) (c_screen c ++ ds).

(** A core operation inside [main]: it runs on the list, the file and the
    input of the console, and what it prints goes to the screen. *)
Definition run_core {A : Type} (op : World -> outcome A) (c : Console)
    : outcome A * Console :=
  match op (mkWorld (c_shoes c) (c_file c) (c_input c) []) with
  | Returned a w =>
      (Returned a w,
       mkConsole (shoes_list w) (inventory w) (stdin w)
         (c_screen c ++ map Note (stdout w)))
  | EOFError w =>
      (EOFError w,
       mkConsole (shoes_list w) (inventory w) (stdin w)
         (c_screen c ++ map Note (stdout w)))
  end.

(** One round of the [while True] of [main]: the menu, the choice, the
    operation.  [None] stands for going round again. *)
Definition menu_step (c : Console) : option finish * Console :=
  let c := show [MenuText] c in
  match c_input c with
  | [] => (Some InputEnded, c)
  | l :: inp =>
      let choice := strip l in
      let c := mkConsole (c_shoes c) (c_file c) inp (c_screen c) in
      let go {A : Type} (r : outcome A * Console) :=
        match r with
        | (Returned _ _, c') => (None, c')
        | (EOFError _, c') => (Some InputEnded, c')
        end in
      if str_eqb choice (txt "1") then go (run_core read_shoes_data c)
      else if str_eqb choice (txt "2") then go (run_core capture_shoes c)
      else if str_eqb choice (txt "3") then
        (None, show (view_all (c_shoes c)) c)
      else if str_eqb choice (txt "4") then go (run_core re_stock c)
      else if str_eqb choice (txt "5") then
        match run_core search_shoe c with
        | (Returned None _, c') => (None, show [ShoeNotFound] c')
        | (Returned (Some found) _, c') => (None, show [ShoeFound found] c')
        | (EOFError _, c') => (Some InputEnded, c')
        end
      else if str_eqb choice (txt "6") then
        (None, show (value_per_item (c_shoes c)) c)
      else if str_eqb choice (txt "7") then
        (None, show (highest_qty (c_shoes c)) c)
      else if str_eqb choice (txt "0") then (Some Exit, show [Goodbye] c)
      else (None, show [InvalidOption] c)
  end.

(** [main], for at most [fuel] rounds: [None] when the rounds run out. *)
Fixpoint main (fuel : nat) (c : Console) : option (finish * Console) :=
  match fuel with
  | O => None
  | S fuel' =>
      match menu_step c with
      | (Some fin, c') => Some (fin, c')
      | (None, c') => main fuel' c'
      end
  end.

(** The file has the header and the number of lines it had, and is there,
    readable and writable exactly as it was. *)
Definition same_shape (f f' : file_state) : Prop :=
  match f, f' with
  | Readable text writable, Readable text' writable' =>
      writable' = writable
      /\ length (readlines text') = length (readlines text)
      /\ hd [] (readlines text') = hd [] (readlines text)
  | _, _ => f' = f
  end.

(** The choices that can change the list, and the one that can change the
    file. *)
Definition changes_list (choice : str) : bool :=
  str_eqb choice (txt "1") || str_eqb choice (txt "2")
  || str_eqb choice (txt "4").

Definition changes_file (choice : str) : bool := str_eqb choice (txt "4").

(** What holds of the outcome of every core operation: it takes input
    from the front only, an [EOFError] comes when the input is used up, and
    the file keeps its shape. *)
Definition settled {A : Type} (w : World) (r : outcome A) : Prop :=
  match r with
  | Returned _ w' =>
      length (stdin w') <= length (stdin w)
      /\ same_shape (inventory w) (inventory w')
  | EOFError w' =>
      stdin w' = [] /\ same_shape (inventory w) (inventory w')
  end.

(** The world an operation leaves, however it ends. *)
Definition world_of {A : Type} (r : outcome A) : World :=
  match r with
  | Returned _ w => w
  | EOFError w => w
  end.

(** A run of the scenario through the menu: load, restock by ten, show the
    highest quantity, leave. *)
Definition demo_console : Console :=
  mkConsole [] (Readable demo_text true)
    [txt "1"; txt " 4 "; txt "y"; txt "10"; txt "7"; txt "0"; txt "1"] [].

Definition demo_session_end : finish * Console :=
  Eval vm_compute in
    match main 8 demo_console with
    | Some r => r
    | None => (InputEnded, demo_console)
    end.

(** A record whose country, code and product have no surrounding
    whitespace. *)
Definition tidy (s : Shoe) : Prop :=
  strip (country s) = country s
  /\ strip (code s) = code s
  /\ strip (product s) = product s.

(** * Properties *)

(** ** The definitions at work *)

Example split_ex :
  split comma (txt "a,,b,") = [txt "a"; txt ""; txt "b"; txt ""].
Proof. reflexivity. Qed.

Example readlines_ex :
  readlines ("h"%char :: cr :: nl :: "x"%char :: cr :: "y"%char :: nl :: nl :: ["z"%char])
  = [["h"%char; nl]; ["x"%char; nl]; ["y"%char; nl]; [nl]; ["z"%char]].
Proof. reflexivity. Qed.

Example py_int_ex :
  map py_int [txt "12"; txt "-5"; txt "+0_7"; txt "1__0"; txt "_1"; txt "1_";
              txt ""; txt "-"; txt "1.0"; txt "1 2"]
  = [Some 12%Z; Some (-5)%Z; Some 7%Z; None; None; None; None; None; None; None].
Proof. reflexivity. Qed.

Example str_of_int_ex :
  map str_of_int [0; 7; 10; 13; -205; 1000]%Z
  = [txt "0"; txt "7"; txt "10"; txt "13"; txt "-205"; txt "1000"].
Proof. reflexivity. Qed.

Example py_float_ex :
  map py_float [txt "120.5"; txt "80"; txt "-1"; txt ".5"; txt "1."; txt "1e3";
                txt "1_0.2_5E-2"; txt "-Inf"; txt "NaN"; txt "."; txt "e5";
                txt "1._5"; txt "1e"; txt "abc"; txt "1,5"]
  = [Some (FNum false 1205 (-1)); Some (FNum false 80 0);
     Some (FNum true 1 0); Some (FNum false 5 (-1)); Some (FNum false 1 0);
     Some (FNum false 1 3); Some (FNum false 1025 (-4)); Some (FInf true);
     Some FNan; None; None; None; None; None; None]%Z.
Proof. reflexivity. Qed.

Example demo_restock :
  match run2 read_shoes_data re_stock (demo_world [txt " Y "; txt "0"; txt "x"; txt "10"]) with
  | Returned _ w =>
      map quantity (shoes_list w) = [13; 50]%Z /\
      inventory w =
        Readable (txt "country,code,product,cost,quantity" ++ [nl]
                  ++ txt "USA,SH001,AirMax,120.5,13" ++ [nl]
                  ++ txt "USA,SH002,Runner,80,50" ++ [nl]) true /\
      stdin w = []
  | EOFError _ => False
  end.
Proof. vm_compute. repeat split. Qed.

(** ** Text lemmas *)

Section TextFacts.


Lemma str_eqb_true (a b : str) : str_eqb a b = true <-> a = b.
Proof.
  unfold str_eqb. destruct (list_eq_dec ascii_dec a b); split; congruence.
Qed.

Lemma str_eqb_false (a b : str) : str_eqb a b = false <-> a <> b.
Proof.
  unfold str_eqb. destruct (list_eq_dec ascii_dec a b); split; congruence.
Qed.

Lemma str_eqb_refl (a : str) : str_eqb a a = true.
Proof. now apply str_eqb_true. Qed.

Lemma lstrip_suffix (s : str) : exists p, s = p ++ lstrip s.
Proof.
  induction s as [|c r [p Hp]]; simpl.
  - now exists [].
  - destruct (isspace c).
    + exists (c :: p). simpl. now f_equal.
    + now exists [].
Qed.

Lemma lstrip_In (c : ascii) (s : str) : In c (lstrip s) -> In c s.
Proof.
  destruct (lstrip_suffix s) as [p Hp]. intros H.
  rewrite Hp. apply in_or_app. now right.
Qed.

Lemma strip_In (c : ascii) (s : str) : In c (strip s) -> In c s.
Proof.
  unfold strip, rstrip. intros H.
  apply in_rev in H. apply lstrip_In in H. apply in_rev in H.
  now apply lstrip_In.
Qed.

Lemma lstrip_head (c : ascii) (r : str) :
  isspace c = false -> lstrip (c :: r) = c :: r.
Proof. intros H. simpl. now rewrite H. Qed.

Lemma lstrip_snoc (s : str) (c : ascii) :
  isspace c = false -> lstrip (s ++ [c]) = lstrip s ++ [c].
Proof.
  intros H. induction s as [|d r IH]; simpl.
  - now rewrite H.
  - destruct (isspace d); [exact IH | reflexivity].
Qed.

Lemma lstrip_idem (s : str) : lstrip (lstrip s) = lstrip s.
Proof.
  induction s as [|c r IH]; simpl; [reflexivity|].
  destruct (isspace c) eqn:E; [exact IH | now apply lstrip_head].
Qed.

Lemma rstrip_cons (c : ascii) (r : str) :
  isspace c = false -> rstrip (c :: r) = c :: rstrip r.
Proof.
  intros H. unfold rstrip. simpl rev at 2.
  rewrite (lstrip_snoc _ _ H), rev_app_distr. reflexivity.
Qed.

Lemma strip_trimmed (s : str) : trimmed (strip s).
Proof.
  unfold trimmed, strip. split.
  - destruct (lstrip s) as [|c r] eqn:E; [reflexivity|].
    assert (Hc : isspace c = false).
    { pose proof (lstrip_idem s) as Hi. rewrite E in Hi. simpl in Hi.
      destruct (isspace c); [|reflexivity].
      exfalso. destruct (lstrip_suffix r) as [p Hp].
      rewrite Hi in Hp. apply (f_equal (@length ascii)) in Hp.
      rewrite length_app in Hp. simpl in Hp. lia. }
    rewrite (rstrip_cons _ _ Hc). now apply lstrip_head.
  - unfold rstrip. rewrite rev_involutive. apply lstrip_idem.
Qed.

Lemma trimmed_strip (s : str) : trimmed s -> strip s = s.
Proof.
  intros [H1 H2]. unfold strip, rstrip.
  rewrite H1, H2. apply rev_involutive.
Qed.

Lemma strip_idem (s : str) : strip (strip s) = strip s.
Proof. apply trimmed_strip, strip_trimmed. Qed.


Lemma split_nonempty (sep : ascii) (s : str) : split sep s <> [].
Proof.
  destruct s as [|c r]; simpl; [discriminate|].
  destruct (Ascii.eqb c sep); [discriminate|].
  destruct (split sep r); discriminate.
Qed.

Lemma split_no_sep (sep : ascii) (s : str) :
  Forall (fun p => ~ In sep p) (split sep s).
Proof.
  induction s as [|c r IH]; simpl.
  - constructor; [tauto | constructor].
  - destruct (Ascii.eqb c sep) eqn:E.
    + constructor; [tauto | exact IH].
    + destruct (split sep r) as [|p ps].
      * constructor; [|constructor].
        intros [H|[]]. subst. now rewrite Ascii.eqb_refl in E.
      * inversion IH; subst. constructor; [|assumption].
        intros [H|H]; [|tauto]. subst. now rewrite Ascii.eqb_refl in E.
Qed.





End TextFacts.

(** ** Facts on [str(n)] *)

Section NumFacts.

Lemma digit_char_plain (d : N) :
  (d < 10)%N -> plain (ascii_of_N (d + 48)).
Proof.
  intros H.
  assert (Hd : In d [0; 1; 2; 3; 4; 5; 6; 7; 8; 9]%N) by (simpl; lia).
  simpl in Hd.
  repeat (destruct Hd as [<-|Hd];
          [split; [reflexivity | split; vm_compute; discriminate]|]).
  contradiction.
Qed.

Lemma minus_plain : plain "-"%char.
Proof. split; [reflexivity | split; discriminate]. Qed.

Lemma digits_of_pos_plain (fuel : nat) :
  forall n acc, Forall plain acc -> Forall plain (digits_of_pos fuel n acc).
Proof.
  induction fuel as [|fuel IH]; intros n acc Hacc; simpl; [assumption|].
  assert (Hd : plain (ascii_of_N (Z.to_N (n mod 10) + 48))).
  { apply digit_char_plain.
    pose proof (Z.mod_pos_bound n 10 ltac:(lia)). lia. }
  destruct (n <? 10)%Z.
  - now constructor.
  - apply IH. now constructor.
Qed.



Lemma str_of_int_plain (n : Z) : Forall plain (str_of_int n).
Proof.
  unfold str_of_int, str_of_nonneg.
  destruct (n <? 0)%Z.
  - constructor; [apply minus_plain|].
    apply digits_of_pos_plain. constructor.
  - apply digits_of_pos_plain. constructor.
Qed.












End NumFacts.

(** ** The file rewrite, line by line *)

Section UpdateFacts.

Variables (target_code : str) (new_quantity : Z).

Lemma update_loop_map (lines : list str) :
  forall updated_lines updated,
    update_loop target_code new_quantity lines updated_lines updated
    = (updated_lines ++ map (rewrite_line target_code new_quantity) lines,
       updated || existsb (matches target_code) lines).
Proof.
  induction lines as [|line rest IH]; intros acc upd; simpl.
  - now rewrite app_nil_r, orb_false_r.
  - unfold rewrite_line, matches, code_field, data_line, blank, fields.
    destruct (strip (rstrip_char nl line)) as [|c0 r0] eqn:Eb.
    + rewrite IH, <- app_assoc. reflexivity.
    + destruct (map strip (split comma (rstrip_char nl line)))
        as [|f1 [|f2 [|f3 [|f4 [|f5 [|f6 fs]]]]]] eqn:Ef;
        try (rewrite IH, <- app_assoc; reflexivity).
      simpl nth_error.
      destruct (str_eqb f2 target_code) eqn:Ec;
        rewrite IH, <- app_assoc; simpl; [|reflexivity].
      now rewrite orb_true_r.
Qed.

Lemma update_loop_length (lines acc out : list str) (b0 b : bool) :
  update_loop target_code new_quantity lines acc b0 = (out, b) ->
  length out = length acc + length lines.
Proof.
  rewrite update_loop_map. intros E. inversion E; subst.
  now rewrite length_app, length_map.
Qed.


End UpdateFacts.

(** ** The lines [readlines] delivers *)

Section ReadlinesFacts.








Lemma with_newline_id (l : str) : endswith nl l = true -> with_newline l = l.
Proof. unfold with_newline. now intros ->. Qed.

End ReadlinesFacts.

Section UpdateFileFacts.

Variables (target_code : str) (new_quantity : Z).





End UpdateFileFacts.

(** ** Restock's persistence step *)

Section Persistence.

Variables (target_code : str) (new_quantity : Z).





End Persistence.



(** ** Restock in memory *)

Section RestockFacts.

Lemma min_scan_first_min (r : list Shoe) :
  forall pre best sb,
    nth_error pre best = Some sb ->
    (forall j s, nth_error pre j = Some s ->
       (quantity sb <= quantity s)%Z
       /\ (j < best -> (quantity sb < quantity s)%Z)) ->
    first_min (pre ++ r) (min_scan r (length pre) best (quantity sb)).
Proof.
  induction r as [|s r IH]; intros pre best sb Hb Hmin; simpl.
  - rewrite app_nil_r. exists sb. split; assumption.
  - assert (Hlt : best < length pre) by (apply nth_error_Some; congruence).
    replace (pre ++ s :: r) with ((pre ++ [s]) ++ r)
      by (rewrite <- app_assoc; reflexivity).
    replace (S (length pre)) with (length (pre ++ [s]))
      by (rewrite length_app; simpl; lia).
    destruct (quantity s <? quantity sb)%Z eqn:E.
    + apply Z.ltb_lt in E. apply IH.
      * rewrite nth_error_app2 by lia. now rewrite Nat.sub_diag.
      * intros j s' Hj.
        destruct (Nat.lt_ge_cases j (length pre)) as [Hjl|Hjl].
        -- rewrite nth_error_app1 in Hj by assumption.
           destruct (Hmin j s' Hj) as [H1 _]. split; intros; lia.
        -- rewrite nth_error_app2 in Hj by assumption.
           destruct (j - length pre) as [|d] eqn:Ed; simpl in Hj.
           ++ inversion Hj; subst. split; intros; lia.
           ++ destruct d; discriminate.
    + apply Z.ltb_ge in E. apply IH.
      * rewrite nth_error_app1 by assumption. exact Hb.
      * intros j s' Hj.
        destruct (Nat.lt_ge_cases j (length pre)) as [Hjl|Hjl].
        -- rewrite nth_error_app1 in Hj by assumption. now apply Hmin.
        -- rewrite nth_error_app2 in Hj by assumption.
           destruct (j - length pre) as [|d] eqn:Ed; simpl in Hj.
           ++ inversion Hj; subst. split; intros; lia.
           ++ destruct d; discriminate.
Qed.

Lemma min_index_first_min (l : list Shoe) :
  l <> [] -> first_min l (min_index l).
Proof.
  destruct l as [|s r]; [congruence|]. intros _.
  apply (min_scan_first_min r [s] 0 s); [reflexivity|].
  intros [|[|j]] s' Hj; simpl in Hj; try discriminate.
  inversion Hj; subst. split; intros; lia.
Qed.

Lemma add_quantity_length (k : Z) (l : list Shoe) :
  forall i, length (add_quantity i k l) = length l.
Proof.
  induction l as [|s r IH]; intros [|i]; simpl; auto.
Qed.




Lemma ask_units_positive (inp : list str) :
  forall out k inp' out',
    ask_units inp out = (Some k, inp', out') -> (0 < k)%Z.
Proof.
  induction inp as [|l inp IH]; intros out k inp' out' H; simpl in H.
  - discriminate.
  - destruct (py_int (strip l)) as [n|]; [|now apply IH in H].
    destruct (n <=? 0)%Z eqn:E; [now apply IH in H|].
    inversion H; subst. apply Z.leb_gt in E. exact E.
Qed.

Lemma ask_units_none (inp : list str) :
  forall out inp' out',
    ask_units inp out = (None, inp', out') -> inp' = [].
Proof.
  induction inp as [|l inp IH]; intros out inp' out' H; simpl in H.
  - now inversion H.
  - destruct (py_int (strip l)) as [n|]; [|now apply IH in H].
    destruct (n <=? 0)%Z; [now apply IH in H | discriminate].
Qed.

Lemma nth_of_nth_error (l : list Shoe) (i : nat) (s d : Shoe) :
  nth_error l i = Some s -> nth i l d = s.
Proof. intros H. now apply nth_error_nth. Qed.






End RestockFacts.

(** ** Restock: the theorems *)

Section RestockTheorems.





End RestockTheorems.







(** ** Search *)

Section SearchTheorems.

Lemma scan_code_first (c : str) (l : list Shoe) :
  match scan_code c l with
  | Some shoe =>
      exists i,
        nth_error l i = Some shoe /\ code shoe = c
        /\ forall j s, j < i -> nth_error l j = Some s -> code s <> c
  | None => forall s, In s l -> code s <> c
  end.
Proof.
  induction l as [|s0 r IH]; simpl.
  - intros s [].
  - destruct (str_eqb (code s0) c) eqn:E.
    + apply str_eqb_true in E. exists 0. repeat split; try assumption.
      intros j s Hj. lia.
    + apply str_eqb_false in E. destruct (scan_code c r) as [shoe|].
      * destruct IH as (i & Hi & Hc & Hfirst). exists (S i).
        repeat split; try assumption.
        intros [|j] s Hj Hs; simpl in Hs.
        -- now inversion Hs; subst.
        -- apply (Hfirst j s); [lia | exact Hs].
      * intros s [<-|Hs]; [exact E | now apply IH].
Qed.

(** C8: on an empty list [search_shoe] prints that nothing is loaded and
    returns [None].  Otherwise it takes the operator's answer, trimmed, as
    the code and returns the first record of the list whose code is that
    very text, character for character, or [None] when no record has it;
    the list, the file and the printed lines stay as they are. *)
Theorem search_first_match (w : World) :
  (shoes_list w = [] ->
   search_shoe w = Returned None (print NoShoesLoaded w))
  /\ forall l inp,
       shoes_list w <> [] -> stdin w = l :: inp ->
       exists r,
         search_shoe w
         = Returned r (mkWorld (shoes_list w) (inventory w) inp (stdout w))
         /\ match r with
            | Some shoe =>
                exists i,
                  nth_error (shoes_list w) i = Some shoe
                  /\ code shoe = strip l
                  /\ forall j s, j < i ->
                       nth_error (shoes_list w) j = Some s ->
                       code s <> strip l
            | None => forall s, In s (shoes_list w) -> code s <> strip l
            end.
Proof.
  split.
  - intros E. unfold search_shoe. now rewrite E.
  - intros l inp Hne Hin. unfold search_shoe. rewrite Hin.
    destruct (shoes_list w) as [|s0 r] eqn:Es; [congruence|].
    exists (scan_code (strip l) (s0 :: r)). split; [reflexivity|].
    apply scan_code_first.
Qed.

End SearchTheorems.

Lemma search_first_match_witness :
  exists r,
    search_shoe (mkWorld [shoe2; shoe1; shoe1] Missing [txt " SH001 "] [])
    = Returned r (mkWorld [shoe2; shoe1; shoe1] Missing [] [])
    /\ match r with
       | Some shoe =>
           exists i,
             nth_error [shoe2; shoe1; shoe1] i = Some shoe
             /\ code shoe = strip (txt " SH001 ")
             /\ forall j s, j < i ->
                  nth_error [shoe2; shoe1; shoe1] j = Some s ->
                  code s <> strip (txt " SH001 ")
       | None =>
           forall s, In s [shoe2; shoe1; shoe1] ->
                     code s <> strip (txt " SH001 ")
       end.
Proof.
  apply (proj2 (search_first_match
                  (mkWorld [shoe2; shoe1; shoe1] Missing [txt " SH001 "] []))
           (txt " SH001 ") []).
  - discriminate.
  - reflexivity.
Defined.

(** ** Capture *)

Section CaptureTheorems.





Lemma capture_returned (w w' : World) :
  capture_shoes w = Returned tt w' ->
  exists s, shoes_list w' = shoes_list w ++ [s]
            /\ inventory w' = inventory w.
Proof.
  unfold capture_shoes.
  destruct (stdin w) as [|l1 [|l2 [|l3 inp]]]; try discriminate.
  destruct (ask_cost inp (stdout w)) as [[[c|] inp1] out1]; [|discriminate].
  destruct (ask_quantity inp1 out1) as [[[q|] inp2] out2]; [|discriminate].
  intros H. inversion H; subst. simpl. eauto.
Qed.


End CaptureTheorems.


(** ** Load *)

Section LoadTheorems.

Lemma load_loop_records (data : list str) :
  forall line_no shoes out,
    load_loop data line_no shoes out
    = (shoes ++ records data, out ++ diagnostics line_no data).
Proof.
  induction data as [|line rest IH]; intros n shoes out; simpl.
  - now rewrite !app_nil_r.
  - unfold decode.
    destruct (strip line) as [|c0 r0] eqn:El; [apply IH|].
    destruct (split comma (c0 :: r0))
      as [|f1 [|f2 [|f3 [|f4 [|f5 [|f6 fs]]]]]];
      cbn [map]; try (rewrite IH, <- app_assoc; reflexivity).
    destruct (py_float (strip f4)) as [c|];
      [destruct (py_int (strip f5)) as [q|]|];
      rewrite IH, <- app_assoc; reflexivity.
Qed.


Lemma read_shoes_data_lines (shoes : list Shoe) (text : str)
    (writable : bool) (inp : list str) (out : list msg) (header : str)
    (data : list str) :
  readlines text = header :: data ->
  read_shoes_data (mkWorld shoes (Readable text writable) inp out)
  = Returned tt
      (mkWorld (records data) (Readable text writable) inp
         (out ++ diagnostics 2 data ++ [Loaded (length (records data))])).
Proof.
  intros Hr. unfold read_shoes_data. cbn [inventory shoes_list stdin stdout].
  rewrite Hr, load_loop_records. simpl. now rewrite <- app_assoc.
Qed.

Lemma read_shoes_data_no_lines (w : World) :
  no_lines (inventory w) ->
  read_shoes_data w
  = Returned tt
      (mkWorld [] (inventory w) (stdin w)
         (stdout w ++ [load_diagnostic (inventory w)])).
Proof.
  unfold read_shoes_data, no_lines. cbn [inventory shoes_list stdin stdout].
  destruct (inventory w) as [| | |text writable]; try reflexivity.
  intros ->. reflexivity.
Qed.

(** C5: [read_shoes_data] always returns; what it leaves in the list does
    not depend on what the list held before, since the list is emptied
    first; and when the file is missing, may not be read, fails otherwise
    or has no line, it prints one diagnostic and leaves the list empty. *)
Theorem load_clears_and_reports :
  (forall w, exists w', read_shoes_data w = Returned tt w')
  /\ (forall shoes f inp out,
        read_shoes_data (mkWorld shoes f inp out)
        = read_shoes_data (mkWorld [] f inp out))
  /\ (forall w,
        no_lines (inventory w) ->
        read_shoes_data w
        = Returned tt
            (mkWorld [] (inventory w) (stdin w)
               (stdout w ++ [load_diagnostic (inventory w)]))).
Proof.
  split; [|split].
  - intros w. unfold read_shoes_data. cbn [inventory shoes_list stdin stdout].
    destruct (inventory w) as [| | |text writable]; eauto.
    destruct (readlines text) as [|header data]; eauto.
    destruct (load_loop data 2 [] (stdout w)). eauto.
  - reflexivity.
  - apply read_shoes_data_no_lines.
Qed.


End LoadTheorems.

Lemma load_clears_and_reports_witness :
  read_shoes_data (mkWorld [shoe1; shoe2] Denied [] [])
  = Returned tt (mkWorld [] Denied [] ([] ++ [ReadPermissionDenied])).
Proof.
  apply (proj2 (proj2 load_clears_and_reports)
           (mkWorld [shoe1; shoe2] Denied [] [])).
  exact I.
Defined.


(** ** Signs of cost and quantity *)

Section SignTheorems.


Lemma re_stock_store (w w' : World) :
  re_stock w = Returned tt w' ->
  shoes_list w' = shoes_list w
  \/ exists k, (0 < k)%Z
       /\ shoes_list w'
          = add_quantity (min_index (shoes_list w)) k (shoes_list w).
Proof.
  unfold re_stock.
  destruct (shoes_list w) as [|s0 r] eqn:Es.
  - intros H. inversion H; subst. simpl. now left.
  - destruct (stdin w) as [|answer inp]; [discriminate|].
    destruct (negb (str_eqb (lower (strip answer)) (txt "y"))).
    + intros H. inversion H; subst. now left.
    + destruct (ask_units inp
                  (stdout w ++
                   [LowestStockItem (nth (min_index (s0 :: r)) (s0 :: r) s0)]))
        as [[[k|] inp'] out'] eqn:Ea; [|discriminate].
      apply ask_units_positive in Ea.
      destruct (_update_quantity_in_file _ _ _ _) as [[updated file] out''].
      intros H. inversion H; subst. right. exists k. now split.
Qed.

Lemma records_decoded (data : list str) (s : Shoe) :
  In s (records data) <-> exists line, In line data /\ decode line = Rec s.
Proof.
  induction data as [|l rest IH]; simpl.
  - split; [tauto | intros (line & [] & _)].
  - split.
    + destruct (decode l) eqn:E;
        try (intros H; apply IH in H; destruct H as (line & Hi & Hd);
             exists line; tauto).
      intros [<-|H]; [exists l; tauto|].
      apply IH in H. destruct H as (line & Hi & Hd). exists line. tauto.
    + intros (line & [<-|Hi] & Hd).
      * rewrite Hd. now left.
      * assert (In s (records rest)) by (apply IH; eauto).
        destruct (decode l); simpl; tauto.
Qed.


End SignTheorems.



(** * Further properties *)

(** ** Whitespace around a text *)

Section SpaceFacts.

Lemma lstrip_all_space (s : str) : all_space s -> lstrip s = [].
Proof.
  intros H. induction H as [|c r Hc Hr IH]; simpl; [reflexivity|].
  now rewrite Hc.
Qed.

Lemma lstrip_space_app (ws s : str) :
  all_space ws -> lstrip (ws ++ s) = lstrip s.
Proof.
  intros H. induction H as [|c r Hc Hr IH]; simpl; [reflexivity|].
  now rewrite Hc.
Qed.

Lemma lstrip_split (s : str) :
  exists ws, all_space ws /\ s = ws ++ lstrip s.
Proof.
  induction s as [|c r (ws & Hws & E)]; simpl.
  - exists []. split; [constructor | reflexivity].
  - destruct (isspace c) eqn:Hc.
    + exists (c :: ws). split; [now constructor|]. simpl. now f_equal.
    + exists []. split; [constructor | reflexivity].
Qed.

Lemma lstrip_app_nonempty (s t : str) :
  lstrip s <> [] -> lstrip (s ++ t) = lstrip s ++ t.
Proof.
  induction s as [|c r IH]; simpl; [congruence|].
  destruct (isspace c); [exact IH | reflexivity].
Qed.

Lemma rstrip_snoc_space (s : str) (c : ascii) :
  isspace c = true -> rstrip (s ++ [c]) = rstrip s.
Proof.
  intros H. unfold rstrip. rewrite rev_app_distr. simpl. now rewrite H.
Qed.

Lemma strip_snoc_space (s : str) (c : ascii) :
  isspace c = true -> strip (s ++ [c]) = strip s.
Proof.
  intros H. unfold strip.
  destruct (lstrip s) as [|d r] eqn:E.
  - destruct (lstrip_split s) as (ws & Hws & Es). rewrite E, app_nil_r in Es.
    subst s. rewrite lstrip_all_space; [reflexivity|].
    apply Forall_app. split; [exact Hws | now repeat constructor].
  - rewrite lstrip_app_nonempty by (rewrite E; discriminate).
    rewrite E. now apply rstrip_snoc_space.
Qed.

Lemma strip_app_space (s ws : str) :
  all_space ws -> strip (s ++ ws) = strip s.
Proof.
  intros H. revert s. induction H as [|c r Hc Hr IH]; intros s.
  - now rewrite app_nil_r.
  - replace (s ++ c :: r) with ((s ++ [c]) ++ r)
      by (rewrite <- app_assoc; reflexivity).
    rewrite IH. now apply strip_snoc_space.
Qed.

Lemma strip_space_app (ws s : str) :
  all_space ws -> strip (ws ++ s) = strip s.
Proof.
  intros H. unfold strip. now rewrite lstrip_space_app.
Qed.

Lemma rstrip_split (s : str) :
  exists ws, all_space ws /\ s = rstrip s ++ ws.
Proof.
  destruct (lstrip_split (rev s)) as (ws & Hws & E).
  exists (rev ws). split; [now apply Forall_rev|].
  unfold rstrip. rewrite <- rev_app_distr, <- E. now rewrite rev_involutive.
Qed.

Lemma lstrip_char_split (x : ascii) (s : str) :
  exists n, s = repeat x n ++ lstrip_char x s.
Proof.
  induction s as [|c r [n E]]; simpl.
  - now exists 0.
  - destruct (Ascii.eqb c x) eqn:Hc.
    + apply Ascii.eqb_eq in Hc. subst c. exists (S n). simpl. now f_equal.
    + now exists 0.
Qed.

Lemma rstrip_char_split (x : ascii) (s : str) :
  exists n, s = rstrip_char x s ++ repeat x n.
Proof.
  destruct (lstrip_char_split x (rev s)) as [n E].
  exists n. unfold rstrip_char.
  assert (H : s = rev (repeat x n ++ lstrip_char x (rev s)))
    by (rewrite <- E; symmetry; apply rev_involutive).
  rewrite rev_app_distr, rev_repeat in H. exact H.
Qed.

Lemma repeat_nl_space (n : nat) : all_space (repeat nl n).
Proof. induction n; simpl; constructor; [reflexivity | assumption]. Qed.

Lemma strip_rstrip_nl (s : str) : strip (rstrip_char nl s) = strip s.
Proof.
  destruct (rstrip_char_split nl s) as [n E].
  pose proof (strip_app_space (rstrip_char nl s) (repeat nl n)
                (repeat_nl_space n)) as A.
  rewrite <- E in A. symmetry. exact A.
Qed.

End SpaceFacts.

(** ** The fields of a line, whatever surrounds it *)

Section FieldFacts.

Lemma space_not_comma (c : ascii) : isspace c = true -> Ascii.eqb c comma = false.
Proof.
  intros H. destruct (Ascii.eqb c comma) eqn:E; [|reflexivity].
  apply Ascii.eqb_eq in E. subst c. discriminate H.
Qed.

Lemma split_snoc (sep c : ascii) (s : str) :
  Ascii.eqb c sep = false ->
  split sep (s ++ [c]) = map_last (fun p => p ++ [c]) (split sep s).
Proof.
  intros Hc. induction s as [|d r IH]; simpl.
  - now rewrite Hc.
  - destruct (Ascii.eqb d sep).
    + rewrite IH. pose proof (split_nonempty sep r) as Hne.
      destruct (split sep r); [congruence | reflexivity].
    + rewrite IH. pose proof (split_nonempty sep r) as Hne.
      destruct (split sep r) as [|q [|q' qs]]; [congruence| |]; reflexivity.
Qed.

Lemma map_strip_last (c : ascii) (l : list str) :
  isspace c = true ->
  map strip (map_last (fun p => p ++ [c]) l) = map strip l.
Proof.
  intros Hc. induction l as [|p [|q r] IH].
  - reflexivity.
  - simpl. now rewrite strip_snoc_space.
  - change (map_last (fun p => p ++ [c]) (p :: q :: r))
      with (p :: map_last (fun p => p ++ [c]) (q :: r)).
    rewrite (map_cons strip p (q :: r)), map_cons. now f_equal.
Qed.

Lemma line_fields_snoc (s : str) (c : ascii) :
  isspace c = true -> line_fields (s ++ [c]) = line_fields s.
Proof.
  intros Hc. unfold line_fields.
  rewrite split_snoc by now apply space_not_comma.
  now apply map_strip_last.
Qed.

Lemma line_fields_cons (c : ascii) (s : str) :
  isspace c = true -> line_fields (c :: s) = line_fields s.
Proof.
  intros Hc. unfold line_fields. simpl.
  rewrite (space_not_comma c Hc).
  pose proof (split_nonempty comma s) as Hne.
  destruct (split comma s) as [|p ps]; [congruence|].
  simpl. f_equal.
  apply (strip_space_app [c] p). now repeat constructor.
Qed.

Lemma line_fields_app_space (s ws : str) :
  all_space ws -> line_fields (s ++ ws) = line_fields s.
Proof.
  intros H. revert s. induction H as [|c r Hc Hr IH]; intros s.
  - now rewrite app_nil_r.
  - replace (s ++ c :: r) with ((s ++ [c]) ++ r)
      by (rewrite <- app_assoc; reflexivity).
    rewrite IH. now apply line_fields_snoc.
Qed.

Lemma line_fields_space_app (ws s : str) :
  all_space ws -> line_fields (ws ++ s) = line_fields s.
Proof.
  intros H. induction H as [|c r Hc Hr IH]; [reflexivity|].
  simpl. rewrite line_fields_cons by assumption. exact IH.
Qed.

Lemma line_fields_strip (s : str) : line_fields (strip s) = line_fields s.
Proof.
  destruct (lstrip_split s) as (ws1 & H1 & E1).
  destruct (rstrip_split (lstrip s)) as (ws2 & H2 & E2).
  pose proof (line_fields_space_app ws1 (lstrip s) H1) as A.
  rewrite <- E1 in A.
  pose proof (line_fields_app_space (rstrip (lstrip s)) ws2 H2) as B.
  rewrite <- E2 in B.
  unfold strip. now rewrite A, B.
Qed.

Lemma fields_line_fields (line : str) : fields line = line_fields line.
Proof.
  unfold fields. destruct (rstrip_char_split nl line) as [n E].
  pose proof (line_fields_app_space (rstrip_char nl line) (repeat nl n)
                (repeat_nl_space n)) as A.
  rewrite <- E in A. symmetry. exact A.
Qed.

Lemma line_fields_trimmed (s : str) :
  map strip (line_fields s) = line_fields s.
Proof.
  unfold line_fields. rewrite map_map. apply map_ext.
  intros p. apply strip_idem.
Qed.

(** Load and the file rewrite see the same blank lines and the same
    fields. *)
Lemma blank_strip (line : str) :
  blank line = match strip line with [] => true | _ :: _ => false end.
Proof. unfold blank. now rewrite strip_rstrip_nl. Qed.

Lemma decode_by_fields (line : str) :
  decode line
  = match strip line with
    | [] => Blank
    | _ :: _ => decode_fields (line_fields line)
    end.
Proof.
  unfold decode. destruct (strip line) as [|c r] eqn:E; [reflexivity|].
  rewrite <- (line_fields_strip line), E. unfold line_fields, decode_fields.
  destruct (split comma (c :: r)) as [|a1 [|a2 [|a3 [|a4 [|a5 [|a6 l]]]]]];
    reflexivity.
Qed.

Lemma data_line_by_fields (line : str) :
  data_line line
  = match strip line with
    | [] => None
    | _ :: _ =>
        match line_fields line with
        | [_; _; _; _; _] => Some (line_fields line)
        | _ => None
        end
    end.
Proof.
  unfold data_line. rewrite blank_strip, fields_line_fields.
  destruct (strip line); reflexivity.
Qed.

End FieldFacts.

(** ** Load after the file rewrite, line by line *)

Section ReloadFacts.

Variables (target_code : str) (new_quantity : Z).


Lemma matches_by_fields (line : str) :
  matches target_code line
  = match strip line with
    | [] => false
    | _ :: _ =>
        match line_fields line with
        | [_; c; _; _; _] => str_eqb c target_code
        | _ => false
        end
    end.
Proof.
  unfold matches, code_field. rewrite data_line_by_fields.
  destruct (strip line); [reflexivity|].
  destruct (line_fields line) as [|f1 [|f2 [|f3 [|f4 [|f5 [|f6 l]]]]]];
    reflexivity.
Qed.





End ReloadFacts.

(** ** Writing lines and reading them again *)

Section LineFacts.

Lemma readlines_full (b rest : str) :
  body_ok b -> readlines (b ++ nl :: rest) = (b ++ [nl]) :: readlines rest.
Proof.
  intros H. induction H as [|c b [Hn Hc] Hb IH]; [reflexivity|].
  change ((c :: b) ++ nl :: rest) with (c :: (b ++ nl :: rest)).
  change (readlines (c :: (b ++ nl :: rest)))
    with (if Ascii.eqb c nl then [nl] :: readlines (b ++ nl :: rest)
          else if Ascii.eqb c cr then
            match b ++ nl :: rest with
            | d :: r' => if Ascii.eqb d nl then [nl] :: readlines r'
                         else [nl] :: readlines (b ++ nl :: rest)
            | [] => [[nl]]
            end
          else match readlines (b ++ nl :: rest) with
               | l :: ls =>
                   match b ++ nl :: rest with
                   | [] => [[c]]
                   | _ :: _ => (c :: l) :: ls
                   end
               | [] => [[c]]
               end).
  destruct (Ascii.eqb c nl) eqn:E1; [apply Ascii.eqb_eq in E1; contradiction|].
  destruct (Ascii.eqb c cr) eqn:E2; [apply Ascii.eqb_eq in E2; contradiction|].
  rewrite IH. destruct (b ++ nl :: rest) eqn:E; [|reflexivity].
  destruct b; discriminate.
Qed.

Lemma readlines_open (l : str) : open_line l -> readlines l = [l].
Proof.
  intros [Hne H]. induction H as [|c b [Hn Hc] Hb IH]; [congruence|].
  simpl.
  destruct (Ascii.eqb c nl) eqn:E1; [apply Ascii.eqb_eq in E1; contradiction|].
  destruct (Ascii.eqb c cr) eqn:E2; [apply Ascii.eqb_eq in E2; contradiction|].
  destruct b as [|d r]; [reflexivity|].
  rewrite IH by discriminate. reflexivity.
Qed.

(** [readlines] undoes [writelines] on the lines of a text file. *)
Lemma readlines_writelines (ls : list str) :
  file_lines ls -> readlines (writelines ls) = ls.
Proof.
  unfold writelines. induction ls as [|l rest IH]; intros H; [reflexivity|].
  simpl in H. destruct rest as [|l' rest'].
  - simpl. rewrite app_nil_r. destruct H as [(b & -> & Hb)|Ho].
    + now rewrite readlines_full.
    + now apply readlines_open.
  - destruct H as [(b & -> & Hb) Hr].
    change (concat ((b ++ [nl]) :: l' :: rest'))
      with ((b ++ [nl]) ++ concat (l' :: rest')).
    rewrite <- app_assoc.
    change ([nl] ++ concat (l' :: rest')) with (nl :: concat (l' :: rest')).
    rewrite readlines_full by assumption. now rewrite IH.
Qed.

Lemma file_lines_cons (l : str) (rest : list str) :
  full_line l -> file_lines rest -> file_lines (l :: rest).
Proof.
  intros H P. simpl. destruct rest; [now left | now split].
Qed.

Lemma full_line_push (c : ascii) (l : str) :
  c <> nl -> c <> cr -> full_line l -> full_line (c :: l).
Proof.
  intros Hn Hc (b & -> & Hb). exists (c :: b). split; [reflexivity|].
  now constructor.
Qed.

Lemma file_lines_push (c : ascii) (l : str) (rest : list str) :
  c <> nl -> c <> cr ->
  file_lines (l :: rest) -> file_lines ((c :: l) :: rest).
Proof.
  intros Hn Hc. simpl. destruct rest.
  - intros [H|[Hne H]]; [left; now apply full_line_push|].
    right. split; [discriminate | now constructor].
  - intros [H P]. split; [now apply full_line_push | exact P].
Qed.

Lemma full_nl : full_line [nl].
Proof. exists []. split; [reflexivity | constructor]. Qed.

Lemma readlines_file_lines_bounded (n : nat) :
  forall s, length s <= n -> file_lines (readlines s).
Proof.
  induction n as [|n IH]; intros s Hn.
  - destruct s; [exact I | simpl in Hn; lia].
  - destruct s as [|c r]; [exact I|]. simpl in Hn.
    assert (Hr : file_lines (readlines r)) by (apply IH; lia).
    simpl readlines.
    destruct (Ascii.eqb c nl) eqn:E1;
      [apply file_lines_cons; [apply full_nl | exact Hr]|].
    destruct (Ascii.eqb c cr) eqn:E2.
    + destruct r as [|d r']; [left; apply full_nl|].
      destruct (Ascii.eqb d nl);
        [|apply file_lines_cons; [apply full_nl | exact Hr]].
      apply file_lines_cons; [apply full_nl|]. apply IH. simpl in Hn. lia.
    + assert (Hcn : c <> nl)
        by (intros ->; now rewrite Ascii.eqb_refl in E1).
      assert (Hcc : c <> cr)
        by (intros ->; now rewrite Ascii.eqb_refl in E2).
      assert (Ho : file_lines [[c]]).
      { right. split; [discriminate|]. now repeat constructor. }
      destruct (readlines r) as [|l ls]; [exact Ho|].
      destruct r; [exact Ho|].
      now apply file_lines_push.
Qed.

Lemma readlines_file_lines (s : str) : file_lines (readlines s).
Proof. now apply (readlines_file_lines_bounded (length s)). Qed.

End LineFacts.

(** ** The rewritten lines are the lines of a text file again *)

Section RewriteLineFacts.

Variables (target_code : str) (new_quantity : Z).

Lemma lstrip_char_In (x c : ascii) (s : str) :
  In c (lstrip_char x s) -> In c s.
Proof.
  destruct (lstrip_char_split x s) as [n E]. intros H.
  rewrite E. apply in_or_app. now right.
Qed.

Lemma rstrip_char_In (x c : ascii) (s : str) :
  In c (rstrip_char x s) -> In c s.
Proof.
  unfold rstrip_char. intros H. apply in_rev in H.
  apply lstrip_char_In in H. now apply in_rev.
Qed.

Lemma split_In (sep c : ascii) (s p : str) :
  In p (split sep s) -> In c p -> In c s.
Proof.
  revert p. induction s as [|d r IH]; intros p; simpl.
  - intros [<-|[]] [].
  - destruct (Ascii.eqb d sep).
    + intros [<-|H] Hc; [destruct Hc|]. right. now apply (IH p).
    + pose proof (split_nonempty sep r) as Hne.
      destruct (split sep r) as [|q qs]; [congruence|].
      intros [<-|H] Hc.
      * destruct Hc as [->|Hc]; [now left|]. right. apply (IH q); [now left | exact Hc].
      * right. apply (IH p); [now right | exact Hc].
Qed.

Lemma rstrip_char_snoc_same (x : ascii) (s : str) :
  rstrip_char x (s ++ [x]) = rstrip_char x s.
Proof.
  unfold rstrip_char. rewrite rev_app_distr. simpl.
  now rewrite Ascii.eqb_refl.
Qed.

Lemma raw_body_ok (line : str) :
  full_line line \/ open_line line -> body_ok (rstrip_char nl line).
Proof.
  intros H.
  assert (Hb : exists b, body_ok b /\ rstrip_char nl line = rstrip_char nl b).
  { destruct H as [(b & -> & Hb)|[_ Hb]].
    - exists b. split; [exact Hb | apply rstrip_char_snoc_same].
    - exists line. now split. }
  destruct Hb as (b & Hb & ->). unfold body_ok in *.
  rewrite Forall_forall in *. intros c Hc. apply Hb.
  now apply rstrip_char_In in Hc.
Qed.

Lemma fields_body_ok (line : str) :
  full_line line \/ open_line line -> Forall body_ok (fields line).
Proof.
  intros H. apply raw_body_ok in H. unfold fields, body_ok in *.
  rewrite Forall_forall in *. intros f Hf.
  apply in_map_iff in Hf. destruct Hf as (p & <- & Hp).
  apply Forall_forall. intros c Hc. apply H.
  apply strip_In in Hc. now apply (split_In comma c _ p).
Qed.

Lemma join_body_ok (ps : list str) :
  Forall body_ok ps -> body_ok (join comma ps).
Proof.
  intros H. induction H as [|p ps Hp Hps IH]; [constructor|].
  destruct ps as [|q qs]; [exact Hp|].
  change (join comma (p :: q :: qs)) with (p ++ comma :: join comma (q :: qs)).
  apply Forall_app. split; [exact Hp|].
  constructor; [split; discriminate | exact IH].
Qed.

Lemma str_of_int_body_ok (n : Z) : body_ok (str_of_int n).
Proof.
  eapply Forall_impl; [|apply str_of_int_plain].
  intros c (Hs & _ & Hn). split; [exact Hn|].
  intros ->. discriminate Hs.
Qed.

Lemma with_quantity_full (line : str) (fs : list str) :
  full_line line \/ open_line line ->
  data_line line = Some fs ->
  full_line (with_quantity fs new_quantity).
Proof.
  intros Hl Hd. pose proof (fields_body_ok line Hl) as Hf.
  unfold data_line in Hd. destruct (blank line); [discriminate|].
  destruct (fields line) as [|f1 [|f2 [|f3 [|f4 [|f5 [|f6 l]]]]]];
    try discriminate.
  inversion Hd; subst fs.
  exists (join comma [f1; f2; f3; f4; str_of_int new_quantity]).
  split; [reflexivity|]. apply join_body_ok.
  repeat match goal with
         | H : Forall _ (_ :: _) |- _ => inversion H; clear H; subst
         end.
  repeat constructor; try assumption. apply str_of_int_body_ok.
Qed.

Lemma endswith_full (l : str) : full_line l -> endswith nl l = true.
Proof.
  intros (b & -> & _). unfold endswith. now rewrite rev_app_distr.
Qed.

Lemma with_newline_lines (l : str) :
  full_line l \/ open_line l -> full_line (with_newline l).
Proof.
  intros [H|[Hne Hb]].
  - now rewrite (with_newline_id l (endswith_full l H)).
  - unfold with_newline. destruct (endswith nl l) eqn:E.
    + exfalso. unfold endswith in E.
      destruct (rev l) as [|c r] eqn:Er; [discriminate|].
      apply Ascii.eqb_eq in E. subst c.
      unfold body_ok in Hb. rewrite Forall_forall in Hb.
      destruct (Hb nl) as [Hn _]; [|now apply Hn].
      apply in_rev. rewrite Er. now left.
    + now exists l.
Qed.

Lemma rewrite_line_lines (l : str) :
  full_line l \/ open_line l ->
  (full_line l -> full_line (rewrite_line target_code new_quantity l))
  /\ (full_line (rewrite_line target_code new_quantity l)
      \/ open_line (rewrite_line target_code new_quantity l)).
Proof.
  intros H. unfold rewrite_line.
  destruct (data_line l) as [fs|] eqn:Ed.
  - destruct (matches target_code l).
    + pose proof (with_quantity_full l fs H Ed). tauto.
    + pose proof (with_newline_lines l H). tauto.
  - destruct (blank l); [tauto|].
    pose proof (with_newline_lines l H). tauto.
Qed.

Lemma file_lines_rewrite (ls : list str) :
  file_lines ls ->
  file_lines (map (rewrite_line target_code new_quantity) ls).
Proof.
  induction ls as [|l rest IH]; intros H; [exact I|].
  simpl in H. destruct rest as [|l' rest'].
  - simpl. apply (rewrite_line_lines l H).
  - destruct H as [Hl Hr].
    change (map (rewrite_line target_code new_quantity) (l :: l' :: rest'))
      with (rewrite_line target_code new_quantity l
            :: map (rewrite_line target_code new_quantity) (l' :: rest')).
    apply file_lines_cons; [|now apply IH].
    apply (rewrite_line_lines l); [now left | exact Hl].
Qed.

Lemma file_lines_updated (header : str) (data : list str) :
  file_lines (header :: data) ->
  file_lines (header :: map (rewrite_line target_code new_quantity) data).
Proof.
  intros H. destruct data as [|l rest]; [exact H|].
  destruct H as [Hh Hd]. apply file_lines_cons; [exact Hh|].
  now apply file_lines_rewrite.
Qed.

(** The file after a successful rewrite, read again. *)
Lemma readlines_updated (text header : str) (data : list str) :
  readlines text = header :: data ->
  readlines
    (writelines (header :: map (rewrite_line target_code new_quantity) data))
  = header :: map (rewrite_line target_code new_quantity) data.
Proof.
  intros Hr. apply readlines_writelines, file_lines_updated.
  rewrite <- Hr. apply readlines_file_lines.
Qed.

End RewriteLineFacts.

(** ** The file rewrite: when it happens, and twice in a row *)

Section UpdateOutcome.

Variables (target_code : str) (new_quantity : Z).











End UpdateOutcome.




(** ** Restock and the file *)

Section RestockFile.





Lemma read_shoes_data_result (w0 w : World) :
  read_shoes_data w0 = Returned tt w ->
  inventory w = inventory w0
  /\ stdin w = stdin w0
  /\ shoes_list w = records (file_data (inventory w0)).
Proof.
  destruct w0 as [shoes f inp out]. cbn [inventory stdin].
  destruct f as [| | |text writable];
    try (intros H; inversion H; subst; now repeat split).
  simpl file_data. destruct (readlines text) as [|header data] eqn:Hr.
  - unfold read_shoes_data. cbn [inventory]. rewrite Hr.
    intros H; inversion H; subst; now repeat split.
  - rewrite (read_shoes_data_lines shoes text writable inp out header data Hr).
    intros H; inversion H; subst; now repeat split.
Qed.






(** X8: Restock never adds, removes or reorders records and never changes
    a country, code, product or cost; no quantity gets lower and the sum of
    all quantities does not fall.  When the input ends before Restock is
    through, the list and the file are as they were. *)
Theorem restock_conserves (w w' : World) :
  (re_stock w = Returned tt w' ->
   map identity (shoes_list w') = map identity (shoes_list w)
   /\ (forall j s s',
         nth_error (shoes_list w) j = Some s ->
         nth_error (shoes_list w') j = Some s' ->
         (quantity s <= quantity s')%Z)
   /\ (total_quantity (shoes_list w) <= total_quantity (shoes_list w'))%Z)
  /\ (re_stock w = EOFError w' ->
      shoes_list w' = shoes_list w /\ inventory w' = inventory w).
Proof.
  split.
  - intros H.
    destruct (re_stock_store w w' H) as [->|(k & Hk & ->)].
    + split; [reflexivity|]. split; [|lia].
      intros j s s' H1 H2. rewrite H1 in H2. inversion H2. lia.
    + generalize (min_index (shoes_list w)) as i.
      induction (shoes_list w) as [|s0 r IH]; intros i.
      * destruct i; simpl; repeat split; try lia;
          intros [|j] s s' H1; discriminate.
      * destruct i as [|i]; simpl.
        -- split; [reflexivity|]. split; [|lia].
           intros [|j] s s' H1 H2; simpl in *.
           ++ inversion H1; inversion H2; subst. simpl. lia.
           ++ rewrite H1 in H2. inversion H2. lia.
        -- destruct (IH i) as (I1 & I2 & I3).
           split; [now f_equal|]. split; [|lia].
           intros [|j] s s' H1 H2; simpl in *.
           ++ rewrite H1 in H2. inversion H2. lia.
           ++ now apply (I2 j).
  - unfold re_stock.
    destruct (shoes_list w) as [|s0 r] eqn:Es; [discriminate|].
    destruct (stdin w) as [|answer inp].
    + intros H. inversion H; subst. now split.
    + destruct (negb (str_eqb (lower (strip answer)) (txt "y")));
        [discriminate|].
      destruct (ask_units inp _) as [[[k|] inp'] out'].
      * destruct (_update_quantity_in_file _ _ _ _) as [[u f] o]. discriminate.
      * intros H. inversion H; subst. now split.
Qed.

End RestockFile.





Lemma restock_conserves_witness :
  map identity (shoes_list restocked_world) = map identity [shoe1; shoe2]
  /\ (forall j s s',
        nth_error [shoe1; shoe2] j = Some s ->
        nth_error (shoes_list restocked_world) j = Some s' ->
        (quantity s <= quantity s')%Z)
  /\ (total_quantity [shoe1; shoe2]
      <= total_quantity (shoes_list restocked_world))%Z.
Proof.
  apply (proj1 (restock_conserves (loaded_world [txt "y"; txt "10"])
                  restocked_world)).
  reflexivity.
Defined.

(** ** More on Load, Capture and Search *)

Section LoadCaptureSearch.

Lemma decode_blank (line : str) :
  blank line = match decode line with Blank => true | _ => false end.
Proof.
  rewrite blank_strip, decode_by_fields.
  destruct (strip line); [reflexivity|]. unfold decode_fields.
  destruct (line_fields line) as [|f1 [|f2 [|f3 [|f4 [|f5 [|f6 l]]]]]];
    try reflexivity.
  destruct (py_float f4); [destruct (py_int f5)|]; reflexivity.
Qed.

Lemma lines_accounted (data : list str) :
  forall n,
    length (records data) + length (diagnostics n data)
    + length (filter blank data) = length data.
Proof.
  induction data as [|line rest IH]; intros n; [reflexivity|].
  specialize (IH (S n)). simpl. rewrite decode_blank.
  destruct (decode line); simpl; lia.
Qed.

(** X9: Load accounts for every line after the header: a line becomes a
    record, or is skipped with one diagnostic, or is blank; the number
    printed at the end is the number of records. *)
Theorem load_accounts_for_lines (shoes : list Shoe) (text : str)
    (writable : bool) (inp : list str) (out : list msg) (header : str)
    (data : list str) :
  readlines text = header :: data ->
  exists w' skipped,
    read_shoes_data (mkWorld shoes (Readable text writable) inp out)
    = Returned tt w'
    /\ stdout w' = out ++ skipped ++ [Loaded (length (shoes_list w'))]
    /\ length (shoes_list w') + length skipped + length (filter blank data)
       = length data.
Proof.
  intros Hr. eexists _, (diagnostics 2 data). split.
  - apply (read_shoes_data_lines shoes text writable inp out header data Hr).
  - simpl. split; [reflexivity | apply lines_accounted].
Qed.

Lemma line_fields_clean (line f : str) :
  In f (line_fields line) -> field_text f.
Proof.
  unfold line_fields. intros H. apply in_map_iff in H.
  destruct H as (p & <- & Hp). split; [apply strip_idem|].
  intros Hc. apply strip_In in Hc.
  pose proof (split_no_sep comma line) as Hs.
  rewrite Forall_forall in Hs. now apply (Hs p).
Qed.

(** X10: every record that Load puts in the list has a country, a code and
    a product without surrounding whitespace and without a comma. *)
Theorem loaded_fields_clean (w0 w : World) (s : Shoe) :
  read_shoes_data w0 = Returned tt w ->
  In s (shoes_list w) ->
  field_text (country s) /\ field_text (code s) /\ field_text (product s).
Proof.
  intros Hl Hs.
  destruct (read_shoes_data_result w0 w Hl) as (_ & _ & E).
  rewrite E in Hs. apply records_decoded in Hs.
  destruct Hs as (line & _ & Hd). rewrite decode_by_fields in Hd.
  destruct (strip line); [discriminate|]. unfold decode_fields in Hd.
  pose proof (line_fields_clean line) as Hc.
  destruct (line_fields line) as [|f1 [|f2 [|f3 [|f4 [|f5 [|f6 l]]]]]];
    try discriminate.
  destruct (py_float f4); [|discriminate].
  destruct (py_int f5); [|discriminate].
  inversion Hd; subst s. simpl.
  repeat split; apply Hc; simpl; tauto.
Qed.

(** X11: what Load leaves in the list depends on the file alone: a Load
    after a Capture gives the list that Load gives without it, the
    captured record is gone; and a second Load in a row changes nothing
    in the list. *)
Theorem load_forgets_captures (w w1 w2 w3 : World) :
  read_shoes_data w = Returned tt w2 ->
  (capture_shoes w = Returned tt w1 ->
   read_shoes_data w1 = Returned tt w3 ->
   shoes_list w3 = shoes_list w2)
  /\ (read_shoes_data w2 = Returned tt w3 ->
      shoes_list w3 = shoes_list w2).
Proof.
  intros H2. destruct (read_shoes_data_result w w2 H2) as (I2 & _ & E2).
  split.
  - intros H1 H3. destruct (capture_returned w w1 H1) as (s & _ & I1).
    destruct (read_shoes_data_result w1 w3 H3) as (_ & _ & E3).
    now rewrite E3, I1, E2.
  - intros H3. destruct (read_shoes_data_result w2 w3 H3) as (_ & _ & E3).
    now rewrite E3, I2, E2.
Qed.

Lemma scan_code_app (c : str) (s : Shoe) (l : list Shoe) :
  scan_code c (l ++ [s])
  = match scan_code c l with
    | Some r => Some r
    | None => if str_eqb (code s) c then Some s else None
    end.
Proof.
  induction l as [|s0 r IH]; simpl.
  - destruct (str_eqb (code s) c); reflexivity.
  - destruct (str_eqb (code s0) c); [reflexivity | exact IH].
Qed.

(** X12: a Search for the code of the shoe just captured always finds a
    record of that code: the first earlier record of that code when there
    is one, the captured shoe itself otherwise. *)
Theorem capture_then_search (w w1 : World) (s : Shoe) (l : str)
    (inp : list str) :
  capture_shoes w = Returned tt w1 ->
  shoes_list w1 = shoes_list w ++ [s] ->
  stdin w1 = l :: inp ->
  strip l = code s ->
  exists r,
    search_shoe w1
    = Returned (Some r)
        (mkWorld (shoes_list w1) (inventory w1) inp (stdout w1))
    /\ code r = code s
    /\ (scan_code (code s) (shoes_list w) = Some r
        \/ (scan_code (code s) (shoes_list w) = None /\ r = s)).
Proof.
  intros _ Hs Hin Hl. unfold search_shoe. rewrite Hin, Hl, Hs.
  destruct (shoes_list w ++ [s]) as [|s0 r0] eqn:E;
    [destruct (shoes_list w); discriminate|].
  rewrite <- E, scan_code_app.
  pose proof (scan_code_first (code s) (shoes_list w)) as Hf.
  destruct (scan_code (code s) (shoes_list w)) as [r|].
  - destruct Hf as (i & _ & Hc & _). exists r. repeat split; auto.
  - rewrite str_eqb_refl. exists s. repeat split; auto.
Qed.

End LoadCaptureSearch.

(** ** The display operations *)

Section DisplayFacts.

Lemma max_scan_first_max (r : list Shoe) :
  forall pre best sb,
    nth_error pre best = Some sb ->
    (forall j s, nth_error pre j = Some s ->
       (quantity s <= quantity sb)%Z
       /\ (j < best -> (quantity s < quantity sb)%Z)) ->
    first_max (pre ++ r) (max_scan r (length pre) best (quantity sb)).
Proof.
  induction r as [|s r IH]; intros pre best sb Hb Hmax; simpl.
  - rewrite app_nil_r. exists sb. split; assumption.
  - assert (Hlt : best < length pre) by (apply nth_error_Some; congruence).
    replace (pre ++ s :: r) with ((pre ++ [s]) ++ r)
      by (rewrite <- app_assoc; reflexivity).
    replace (S (length pre)) with (length (pre ++ [s]))
      by (rewrite length_app; simpl; lia).
    assert (Hcase : forall j s',
               nth_error (pre ++ [s]) j = Some s' ->
               (j < length pre /\ nth_error pre j = Some s')
               \/ (j = length pre /\ s' = s)).
    { intros j s' Hj.
      destruct (Nat.lt_ge_cases j (length pre)) as [Hjl|Hjl].
      - left. rewrite nth_error_app1 in Hj by assumption. now split.
      - right. rewrite nth_error_app2 in Hj by assumption.
        destruct (j - length pre) as [|d] eqn:Ed; simpl in Hj.
        + inversion Hj. split; [lia | reflexivity].
        + destruct d; discriminate. }
    destruct (quantity sb <? quantity s)%Z eqn:E.
    + apply Z.ltb_lt in E. apply IH.
      * rewrite nth_error_app2 by lia. now rewrite Nat.sub_diag.
      * intros j s' Hj.
        destruct (Hcase j s' Hj) as [[Hjl Hp]|[-> ->]].
        -- destruct (Hmax j s' Hp) as [H1 _]. split; intros; lia.
        -- split; intros; lia.
    + apply Z.ltb_ge in E. apply IH.
      * rewrite nth_error_app1 by assumption. exact Hb.
      * intros j s' Hj.
        destruct (Hcase j s' Hj) as [[Hjl Hp]|[-> ->]].
        -- now apply Hmax.
        -- split; intros; lia.
Qed.

Lemma max_index_first_max (l : list Shoe) :
  l <> [] -> first_max l (max_index l).
Proof.
  destruct l as [|s r]; [congruence|]. intros _.
  apply (max_scan_first_max r [s] 0 s); [reflexivity|].
  intros [|[|j]] s' Hj; simpl in Hj; try discriminate.
  inversion Hj; subst. split; intros; lia.
Qed.

(** X13: [highest_qty] offers the first record of greatest quantity of the
    list; the record that Restock selects never has more than it, and has
    as much only when all records have the same quantity. *)
Theorem highest_first_max (shoes : list Shoe) :
  shoes <> [] ->
  exists high low,
    highest_qty shoes = [ForSaleHeader; ShoeLine high]
    /\ nth_error shoes (max_index shoes) = Some high
    /\ first_max shoes (max_index shoes)
    /\ nth_error shoes (min_index shoes) = Some low
    /\ (quantity low <= quantity high)%Z
    /\ (quantity low = quantity high ->
        forall s, In s shoes -> quantity s = quantity high).
Proof.
  intros Hne.
  pose proof (max_index_first_max shoes Hne) as Hmax.
  pose proof (min_index_first_min shoes Hne) as Hmin.
  destruct Hmax as (high & Hh & Hhigh). destruct Hmin as (low & Hl & Hlow).
  exists high, low. split.
  - unfold highest_qty. destruct shoes as [|s0 r]; [congruence|].
    now rewrite (nth_of_nth_error _ _ _ s0 Hh).
  - split; [exact Hh|]. split; [now exists high|]. split; [exact Hl|].
    split; [apply (Hhigh _ _ Hl)|].
    intros E s Hs. apply In_nth_error in Hs. destruct Hs as [j Hj].
    destruct (Hhigh j s Hj) as [H1 _]. destruct (Hlow j s Hj) as [H2 _]. lia.
Qed.

End DisplayFacts.

Lemma load_accounts_for_lines_witness :
  exists w' skipped,
    read_shoes_data (mkWorld [] (Readable mixed_text true) [] [])
    = Returned tt w'
    /\ stdout w' = [] ++ skipped ++ [Loaded (length (shoes_list w'))]
    /\ length (shoes_list w') + length skipped
       + length (filter blank
                   [txt " USA , SH001 , AirMax , 120.5 , 3 " ++ [nl];
                    [nl];
                    txt "USA,SH002,Runner" ++ [nl];
                    txt "USA,SH003,Racer,dear,5" ++ [nl];
                    txt "USA,SH002,Runner,80,50"])
       = 5.
Proof.
  apply (load_accounts_for_lines [] mixed_text true [] []
           (txt "SH000,not,a,header,1" ++ [nl])
           [txt " USA , SH001 , AirMax , 120.5 , 3 " ++ [nl];
            [nl];
            txt "USA,SH002,Runner" ++ [nl];
            txt "USA,SH003,Racer,dear,5" ++ [nl];
            txt "USA,SH002,Runner,80,50"]).
  reflexivity.
Defined.

Lemma loaded_fields_clean_witness :
  field_text (country shoe1) /\ field_text (code shoe1)
  /\ field_text (product shoe1).
Proof.
  apply (loaded_fields_clean
           (mkWorld [] (Readable mixed_text true) [] [])
           (mkWorld [shoe1; shoe2] (Readable mixed_text true) []
              [SkipInvalidLine 4 (txt "USA,SH002,Runner");
               SkipBadNumber 5 (txt "USA,SH003,Racer,dear,5");
               Loaded 2])
           shoe1).
  - reflexivity.
  - now left.
Defined.

Lemma load_forgets_captures_witness :
  shoes_list (loaded_world [])
  = shoes_list (mkWorld [shoe1; shoe2] (Readable demo_text true) []
                  [Loaded 2]).
Proof.
  apply (proj1 (load_forgets_captures
                  (mkWorld [] (Readable demo_text true)
                     [txt "UK"; txt "SH9"; txt "Pegasus"; txt "99.5";
                      txt "7"] [])
                  (mkWorld [mkShoe (txt "UK") (txt "SH9") (txt "Pegasus")
                              (FNum false 995 (-1)) 7]
                     (Readable demo_text true) [] [ShoeCaptured])
                  (mkWorld [shoe1; shoe2] (Readable demo_text true)
                     [txt "UK"; txt "SH9"; txt "Pegasus"; txt "99.5";
                      txt "7"] [Loaded 2])
                  (mkWorld [shoe1; shoe2] (Readable demo_text true) []
                     [ShoeCaptured; Loaded 2])
                  eq_refl));
    reflexivity.
Defined.

Lemma capture_then_search_witness :
  exists r,
    search_shoe
      (mkWorld [shoe1; mkShoe (txt "UK") (txt "SH001") (txt "Pegasus")
                         (FNum false 995 (-1)) 7]
         Missing [txt " SH001 "] [ShoeCaptured])
    = Returned (Some r)
        (mkWorld [shoe1; mkShoe (txt "UK") (txt "SH001") (txt "Pegasus")
                           (FNum false 995 (-1)) 7]
           Missing [] [ShoeCaptured])
    /\ code r = txt "SH001"
    /\ (scan_code (txt "SH001") [shoe1] = Some r
        \/ (scan_code (txt "SH001") [shoe1] = None
            /\ r = mkShoe (txt "UK") (txt "SH001") (txt "Pegasus")
                     (FNum false 995 (-1)) 7)).
Proof.
  apply (capture_then_search
           (mkWorld [shoe1] Missing
              [txt "UK"; txt "SH001"; txt "Pegasus"; txt "99.5"; txt "7";
               txt " SH001 "] [])
           (mkWorld [shoe1; mkShoe (txt "UK") (txt "SH001") (txt "Pegasus")
                              (FNum false 995 (-1)) 7]
              Missing [txt " SH001 "] [ShoeCaptured])
           (mkShoe (txt "UK") (txt "SH001") (txt "Pegasus")
              (FNum false 995 (-1)) 7)
           (txt " SH001 ") []);
    reflexivity.
Defined.

Lemma highest_first_max_witness :
  exists high low,
    highest_qty [shoe1; shoe2; shoe2; shoe1] = [ForSaleHeader; ShoeLine high]
    /\ nth_error [shoe1; shoe2; shoe2; shoe1] 1 = Some high
    /\ first_max [shoe1; shoe2; shoe2; shoe1] 1
    /\ nth_error [shoe1; shoe2; shoe2; shoe1] 0 = Some low
    /\ (quantity low <= quantity high)%Z
    /\ (quantity low = quantity high ->
        forall s, In s [shoe1; shoe2; shoe2; shoe1] ->
                  quantity s = quantity high).
Proof.
  apply (highest_first_max [shoe1; shoe2; shoe2; shoe1]).
  discriminate.
Defined.

(** ** main *)

Section MainFacts.

Lemma same_shape_refl (f : file_state) : same_shape f f.
Proof. destruct f; simpl; auto. Qed.

Lemma same_shape_trans (f g h : file_state) :
  same_shape f g -> same_shape g h -> same_shape f h.
Proof.
  destruct f, g; simpl; try discriminate; try (intros ->; auto; fail);
    destruct h; simpl; try discriminate; auto.
  intros (-> & L1 & H1) (-> & L2 & H2). repeat split; congruence.
Qed.

Lemma update_same_shape (t : str) (q : Z) (f : file_state) (out : list msg) :
  same_shape f (snd (fst (_update_quantity_in_file t q f out))).
Proof.
  unfold _update_quantity_in_file.
  destruct f as [| | |text writable]; try reflexivity.
  destruct (readlines text) as [|header data] eqn:Hr;
    [apply same_shape_refl|].
  rewrite update_loop_map. simpl orb.
  destruct (existsb (matches t) data); simpl negb; cbv iota;
    [|apply same_shape_refl].
  destruct writable; [|apply same_shape_refl].
  cbn [fst snd same_shape].
  change ([header] ++ map (rewrite_line t q) data)
    with (header :: map (rewrite_line t q) data).
  rewrite (readlines_updated t q text header data Hr), Hr.
  simpl. now rewrite length_map.
Qed.

Lemma ask_cost_input (inp : list str) :
  forall out r inp' out',
    ask_cost inp out = (r, inp', out') ->
    length inp' <= length inp /\ (r = None -> inp' = []).
Proof.
  induction inp as [|l inp IH]; intros out r inp' out' H; simpl in H.
  - inversion H; subst. auto.
  - destruct (py_float (strip l)).
    + inversion H; subst. simpl. split; [lia | discriminate].
    + apply IH in H. simpl. split; [lia | tauto].
Qed.

Lemma ask_quantity_input (inp : list str) :
  forall out r inp' out',
    ask_quantity inp out = (r, inp', out') ->
    length inp' <= length inp /\ (r = None -> inp' = []).
Proof.
  induction inp as [|l inp IH]; intros out r inp' out' H; simpl in H.
  - inversion H; subst. auto.
  - destruct (py_int (strip l)).
    + inversion H; subst. simpl. split; [lia | discriminate].
    + apply IH in H. simpl. split; [lia | tauto].
Qed.

Lemma ask_units_input (inp : list str) :
  forall out r inp' out',
    ask_units inp out = (r, inp', out') ->
    length inp' <= length inp /\ (r = None -> inp' = []).
Proof.
  induction inp as [|l inp IH]; intros out r inp' out' H; simpl in H.
  - inversion H; subst. auto.
  - destruct (py_int (strip l)) as [n|].
    + destruct (n <=? 0)%Z.
      * apply IH in H. simpl. split; [lia | tauto].
      * inversion H; subst. simpl. split; [lia | discriminate].
    + apply IH in H. simpl. split; [lia | tauto].
Qed.

Lemma read_shoes_data_settled (w : World) : settled w (read_shoes_data w).
Proof.
  unfold read_shoes_data. cbn [inventory shoes_list stdin stdout].
  destruct (inventory w) as [| | |text writable] eqn:Ef;
    try (simpl; rewrite Ef; split; [lia | reflexivity]).
  destruct (readlines text) as [|header data].
  - simpl. rewrite Ef. split; [lia | apply same_shape_refl].
  - destruct (load_loop data 2 [] (stdout w)) as [shoes out].
    simpl. rewrite Ef. split; [lia | apply same_shape_refl].
Qed.

Lemma capture_shoes_settled (w : World) : settled w (capture_shoes w).
Proof.
  unfold settled, capture_shoes.
  destruct (stdin w) as [|l1 [|l2 [|l3 inp]]];
    try (simpl; split; [reflexivity | apply same_shape_refl]).
  destruct (ask_cost inp (stdout w)) as [[[c|] inp1] out1] eqn:E1;
    destruct (ask_cost_input _ _ _ _ _ E1) as [L1 N1].
  - destruct (ask_quantity inp1 out1) as [[[q|] inp2] out2] eqn:E2;
      destruct (ask_quantity_input _ _ _ _ _ E2) as [L2 N2]; simpl.
    + split; [lia | apply same_shape_refl].
    + split; [now apply N2 | apply same_shape_refl].
  - simpl. split; [now apply N1 | apply same_shape_refl].
Qed.

Lemma re_stock_settled (w : World) : settled w (re_stock w).
Proof.
  unfold settled, re_stock.
  destruct (shoes_list w) as [|s0 r] eqn:Es.
  - simpl. split; [lia | apply same_shape_refl].
  - destruct (stdin w) as [|answer inp];
      [simpl; split; [reflexivity | apply same_shape_refl]|].
    destruct (negb (str_eqb (lower (strip answer)) (txt "y"))).
    + simpl. split; [lia | apply same_shape_refl].
    + destruct (ask_units inp _) as [[[k|] inp'] out'] eqn:Ea;
        destruct (ask_units_input _ _ _ _ _ Ea) as [L N].
      * pose proof (update_same_shape
                      (code (nth (min_index (s0 :: r))
                               (add_quantity (min_index (s0 :: r)) k (s0 :: r))
                               s0))
                      (quantity (nth (min_index (s0 :: r))
                                   (add_quantity (min_index (s0 :: r)) k
                                      (s0 :: r)) s0))
                      (inventory w) out') as Hu.
        destruct (_update_quantity_in_file _ _ _ _) as [[u f] o].
        simpl in *. split; [lia | exact Hu].
      * simpl. split; [now apply N | apply same_shape_refl].
Qed.

Lemma search_shoe_settled (w : World) : settled w (search_shoe w).
Proof.
  unfold settled, search_shoe.
  destruct (shoes_list w) as [|s0 r].
  - simpl. split; [lia | apply same_shape_refl].
  - destruct (stdin w) as [|l inp] eqn:Ei; simpl.
    + split; [exact Ei | apply same_shape_refl].
    + split; [lia | apply same_shape_refl].
Qed.

(** What a round of the menu does to the input and the file. *)
Lemma run_core_settled {A : Type} (op : World -> outcome A) (c : Console) :
  (forall w, settled w (op w)) ->
  match run_core op c with
  | (Returned _ _, c') =>
      length (c_input c') <= length (c_input c)
      /\ same_shape (c_file c) (c_file c')
  | (EOFError _, c') =>
      c_input c' = [] /\ same_shape (c_file c) (c_file c')
  end.
Proof.
  intros H. unfold run_core.
  specialize (H (mkWorld (c_shoes c) (c_file c) (c_input c) [])).
  destruct (op _) as [a w'|w']; exact H.
Qed.

Lemma menu_step_settled (c : Console) :
  match menu_step c with
  | (None, c') =>
      length (c_input c') < length (c_input c)
      /\ same_shape (c_file c) (c_file c')
  | (Some InputEnded, c') =>
      c_input c' = [] /\ same_shape (c_file c) (c_file c')
  | (Some Exit, c') =>
      same_shape (c_file c) (c_file c')
      /\ exists scr, c_screen c' = scr ++ [Goodbye]
  end.
Proof.
  unfold menu_step, show. cbn [c_input c_shoes c_file c_screen].
  destruct (c_input c) as [|l inp];
    [split; [reflexivity | apply same_shape_refl]|].
  set (c1 := mkConsole (c_shoes c) (c_file c) inp (c_screen c ++ [MenuText])).
  assert (Hc : forall (A : Type) (op : World -> outcome A),
             (forall w, settled w (op w)) ->
             match run_core op c1 with
             | (Returned _ _, c') =>
                 length (c_input c') < S (length inp)
                 /\ same_shape (c_file c) (c_file c')
             | (EOFError _, c') =>
                 c_input c' = [] /\ same_shape (c_file c) (c_file c')
             end).
  { intros A op H. pose proof (run_core_settled op c1 H) as R.
    destruct (run_core op c1) as [[a w'|w'] c']; simpl in R;
      destruct R as [R1 R2]; split; auto; lia. }
  simpl length.
  destruct (str_eqb (strip l) (txt "1")).
  { specialize (Hc _ _ read_shoes_data_settled).
    destruct (run_core read_shoes_data c1) as [[a w'|w'] c']; exact Hc. }
  destruct (str_eqb (strip l) (txt "2")).
  { specialize (Hc _ _ capture_shoes_settled).
    destruct (run_core capture_shoes c1) as [[a w'|w'] c']; exact Hc. }
  destruct (str_eqb (strip l) (txt "3")).
  { simpl. split; [lia | apply same_shape_refl]. }
  destruct (str_eqb (strip l) (txt "4")).
  { specialize (Hc _ _ re_stock_settled).
    destruct (run_core re_stock c1) as [[a w'|w'] c']; exact Hc. }
  destruct (str_eqb (strip l) (txt "5")).
  { specialize (Hc _ _ search_shoe_settled).
    destruct (run_core search_shoe c1) as [[[found|] w'|w'] c']; exact Hc. }
  destruct (str_eqb (strip l) (txt "6")).
  { simpl. split; [lia | apply same_shape_refl]. }
  destruct (str_eqb (strip l) (txt "7")).
  { simpl. split; [lia | apply same_shape_refl]. }
  destruct (str_eqb (strip l) (txt "0")).
  { simpl. split; [apply same_shape_refl|]. eauto. }
  simpl. split; [lia | apply same_shape_refl].
Qed.


(** X15: whatever the operator does in a run of [main], the file keeps its
    shape: a file that was missing or could not be read is not created or
    touched, and a file that was read has, at the end, the header and the
    number of lines it had at the start. *)
Theorem main_keeps_file_shape (fuel : nat) :
  forall c fin c',
    main fuel c = Some (fin, c') -> same_shape (c_file c) (c_file c').
Proof.
  induction fuel as [|fuel IH]; intros c fin c' H; [discriminate|].
  simpl in H. pose proof (menu_step_settled c) as Hs.
  destruct (menu_step c) as [[[|]|] c1].
  - inversion H; subst. apply Hs.
  - inversion H; subst. apply Hs.
  - destruct Hs as [_ Hs]. apply (same_shape_trans _ _ _ Hs).
    now apply (IH c1 fin).
Qed.

Lemma read_shoes_data_file (w : World) :
  inventory (world_of (read_shoes_data w)) = inventory w.
Proof.
  unfold read_shoes_data. cbn [inventory shoes_list stdin stdout].
  destruct (inventory w) as [| | |text writable] eqn:Ef; try (simpl; auto).
  destruct (readlines text) as [|header data]; [simpl; auto|].
  destruct (load_loop data 2 [] (stdout w)) as [shoes out]. simpl. auto.
Qed.

Lemma capture_shoes_file (w : World) :
  inventory (world_of (capture_shoes w)) = inventory w.
Proof.
  unfold capture_shoes.
  destruct (stdin w) as [|l1 [|l2 [|l3 inp]]]; try reflexivity.
  destruct (ask_cost inp (stdout w)) as [[[c|] inp1] out1]; [|reflexivity].
  destruct (ask_quantity inp1 out1) as [[[q|] inp2] out2]; reflexivity.
Qed.

Lemma search_shoe_same (w : World) :
  inventory (world_of (search_shoe w)) = inventory w
  /\ shoes_list (world_of (search_shoe w)) = shoes_list w.
Proof.
  unfold search_shoe.
  destruct (shoes_list w) as [|s0 r] eqn:Es; [simpl; auto|].
  destruct (stdin w); simpl; auto.
Qed.

Lemma run_core_world {A : Type} (op : World -> outcome A) (c : Console) :
  c_shoes (snd (run_core op c))
  = shoes_list (world_of (op (mkWorld (c_shoes c) (c_file c) (c_input c) [])))
  /\ c_file (snd (run_core op c))
     = inventory
         (world_of (op (mkWorld (c_shoes c) (c_file c) (c_input c) []))).
Proof.
  unfold run_core. destruct (op _); simpl; auto.
Qed.

(** X16: in a round of the menu only the options 1, 2 and 4 can change the
    list, and only the option 4 can change the file; every other answer,
    the unknown ones included, leaves both as they were. *)
Theorem menu_step_changes (c : Console) (l : str) (inp : list str)
    (fin : option finish) (c' : Console) :
  c_input c = l :: inp ->
  menu_step c = (fin, c') ->
  (changes_list (strip l) = false -> c_shoes c' = c_shoes c)
  /\ (changes_file (strip l) = false -> c_file c' = c_file c).
Proof.
  intros Hin. unfold menu_step, show, changes_list, changes_file.
  cbn [c_input c_shoes c_file c_screen]. rewrite Hin.
  set (c1 := mkConsole (c_shoes c) (c_file c) inp (c_screen c ++ [MenuText])).
  destruct (str_eqb (strip l) (txt "1")) eqn:E1.
  { destruct (run_core_world read_shoes_data c1) as [_ Hf].
    rewrite read_shoes_data_file in Hf.
    destruct (run_core read_shoes_data c1) as [[a w'|w'] c2];
      intros H; inversion H; subst; (split; [discriminate | intros _; exact Hf]). }
  destruct (str_eqb (strip l) (txt "2")) eqn:E2.
  { destruct (run_core_world capture_shoes c1) as [_ Hf].
    rewrite capture_shoes_file in Hf.
    destruct (run_core capture_shoes c1) as [[a w'|w'] c2];
      intros H; inversion H; subst; (split; [discriminate | intros _; exact Hf]). }
  destruct (str_eqb (strip l) (txt "3")) eqn:E3.
  { intros H; inversion H; subst. simpl. auto. }
  destruct (str_eqb (strip l) (txt "4")) eqn:E4.
  { intros _. split; discriminate. }
  destruct (str_eqb (strip l) (txt "5")) eqn:E5.
  { destruct (run_core_world search_shoe c1) as [Hs Hf].
    destruct (search_shoe_same
                (mkWorld (c_shoes c1) (c_file c1) (c_input c1) [])) as [Sf Ss].
    rewrite Ss in Hs. rewrite Sf in Hf.
    destruct (run_core search_shoe c1) as [[[found|] w'|w'] c2];
      intros H; inversion H; subst; simpl in *; auto. }
  destruct (str_eqb (strip l) (txt "6")) eqn:E6.
  { intros H; inversion H; subst. simpl. auto. }
  destruct (str_eqb (strip l) (txt "7")) eqn:E7.
  { intros H; inversion H; subst. simpl. auto. }
  destruct (str_eqb (strip l) (txt "0")) eqn:E0;
    intros H; inversion H; subst; simpl; auto.
Qed.

End MainFacts.

Example demo_session :
  main 8 demo_console = Some demo_session_end
  /\ fst demo_session_end = Exit
  /\ map quantity (c_shoes (snd demo_session_end)) = [13; 50]%Z
  /\ c_input (snd demo_session_end) = [txt "1"]
  /\ c_file (snd demo_session_end)
     = Readable (txt "country,code,product,cost,quantity" ++ [nl]
                 ++ txt "USA,SH001,AirMax,120.5,13" ++ [nl]
                 ++ txt "USA,SH002,Runner,80,50" ++ [nl]) true.
Proof. repeat split. Qed.


Lemma main_keeps_file_shape_witness :
  same_shape (c_file demo_console) (c_file (snd demo_session_end)).
Proof.
  apply (main_keeps_file_shape 8 demo_console (fst demo_session_end)
           (snd demo_session_end)).
  reflexivity.
Defined.

Lemma menu_step_changes_witness :
  (changes_list (strip (txt " 9 ")) = false ->
   c_shoes (snd (menu_step (mkConsole [shoe1] Missing [txt " 9 "] [])))
   = c_shoes (mkConsole [shoe1] Missing [txt " 9 "] []))
  /\ (changes_file (strip (txt " 9 ")) = false ->
      c_file (snd (menu_step (mkConsole [shoe1] Missing [txt " 9 "] [])))
      = c_file (mkConsole [shoe1] Missing [txt " 9 "] [])).
Proof.
  apply (menu_step_changes (mkConsole [shoe1] Missing [txt " 9 "] [])
           (txt " 9 ") []
           (fst (menu_step (mkConsole [shoe1] Missing [txt " 9 "] [])))
           (snd (menu_step (mkConsole [shoe1] Missing [txt " 9 "] []))));
    reflexivity.
Defined.

(** ** Whitespace, and what Search can reach *)

Section Reach.

(** X17: whitespace before and after a line of the file never matters:
    Load reads the line as it reads the line without it, and the file
    rewrite finds the same code in it. *)
Theorem surrounding_space_ignored (ws1 ws2 line target_code : str) :
  all_space ws1 -> all_space ws2 ->
  decode (ws1 ++ line ++ ws2) = decode line
  /\ matches target_code (ws1 ++ line ++ ws2) = matches target_code line
  /\ blank (ws1 ++ line ++ ws2) = blank line.
Proof.
  intros H1 H2.
  assert (Es : strip (ws1 ++ line ++ ws2) = strip line)
    by (rewrite strip_space_app by assumption; now apply strip_app_space).
  assert (Ef : line_fields (ws1 ++ line ++ ws2) = line_fields line)
    by (rewrite line_fields_space_app by assumption;
        now apply line_fields_app_space).
  rewrite !decode_by_fields, !matches_by_fields, !blank_strip, Es, Ef.
  auto.
Qed.

Lemma decoded_tidy (line : str) (s : Shoe) : decode line = Rec s -> tidy s.
Proof.
  rewrite decode_by_fields. destruct (strip line); [discriminate|].
  unfold decode_fields. pose proof (line_fields_clean line) as Hc.
  destruct (line_fields line) as [|f1 [|f2 [|f3 [|f4 [|f5 [|f6 l]]]]]];
    try discriminate.
  destruct (py_float f4); [|discriminate].
  destruct (py_int f5); [|discriminate].
  intros H. inversion H; subst s. unfold tidy. simpl.
  repeat split; apply Hc; simpl; tauto.
Qed.

Lemma records_tidy (data : list str) : Forall tidy (records data).
Proof.
  apply Forall_forall. intros s Hs. apply records_decoded in Hs.
  destruct Hs as (line & _ & Hd). now apply (decoded_tidy line).
Qed.

Lemma read_shoes_data_shoes (w : World) :
  shoes_list (world_of (read_shoes_data w))
  = records (file_data (inventory w)).
Proof.
  unfold read_shoes_data. cbn [inventory shoes_list stdin stdout].
  destruct (inventory w) as [| | |text writable]; try reflexivity.
  simpl file_data. destruct (readlines text) as [|header data]; [reflexivity|].
  rewrite load_loop_records. reflexivity.
Qed.

Lemma capture_shoes_tidy (w : World) :
  Forall tidy (shoes_list w) ->
  Forall tidy (shoes_list (world_of (capture_shoes w))).
Proof.
  intros H. unfold capture_shoes.
  destruct (stdin w) as [|l1 [|l2 [|l3 inp]]]; try exact H.
  destruct (ask_cost inp (stdout w)) as [[[c|] inp1] out1]; [|exact H].
  destruct (ask_quantity inp1 out1) as [[[q|] inp2] out2]; [|exact H].
  simpl. apply Forall_app. split; [exact H|].
  constructor; [|constructor].
  unfold tidy. simpl. repeat split; apply strip_idem.
Qed.

Lemma add_quantity_tidy (k : Z) (l : list Shoe) :
  Forall tidy l -> forall i, Forall tidy (add_quantity i k l).
Proof.
  intros H. induction H as [|s r Hs Hr IH]; intros [|i]; simpl;
    constructor; auto.
Qed.

Lemma re_stock_tidy (w : World) :
  Forall tidy (shoes_list w) ->
  Forall tidy (shoes_list (world_of (re_stock w))).
Proof.
  intros H. unfold re_stock.
  destruct (shoes_list w) as [|s0 r] eqn:Es; [simpl; now rewrite Es|].
  destruct (stdin w) as [|answer inp]; [exact H|].
  destruct (negb (str_eqb (lower (strip answer)) (txt "y"))); [exact H|].
  destruct (ask_units inp _) as [[[k|] inp'] out']; [|exact H].
  destruct (_update_quantity_in_file _ _ _ _) as [[u f] o].
  simpl world_of. cbn [shoes_list]. now apply add_quantity_tidy.
Qed.

Lemma menu_step_tidy (c : Console) :
  Forall tidy (c_shoes c) -> Forall tidy (c_shoes (snd (menu_step c))).
Proof.
  intros H. unfold menu_step, show. cbn [c_input c_shoes c_file c_screen].
  destruct (c_input c) as [|l inp]; [exact H|].
  set (c1 := mkConsole (c_shoes c) (c_file c) inp (c_screen c ++ [MenuText])).
  assert (Hc : forall (A : Type) (op : World -> outcome A),
             (forall w, Forall tidy (shoes_list w) ->
                        Forall tidy (shoes_list (world_of (op w)))) ->
             Forall tidy (c_shoes (snd (run_core op c1)))).
  { intros A op Hop. rewrite (proj1 (run_core_world op c1)).
    apply Hop. exact H. }
  destruct (str_eqb (strip l) (txt "1")).
  { specialize (Hc _ read_shoes_data
                  (fun w _ => eq_ind_r (Forall tidy)
                                (records_tidy (file_data (inventory w)))
                                (read_shoes_data_shoes w))).
    destruct (run_core read_shoes_data c1) as [[a w'|w'] c']; exact Hc. }
  destruct (str_eqb (strip l) (txt "2")).
  { specialize (Hc _ _ capture_shoes_tidy).
    destruct (run_core capture_shoes c1) as [[a w'|w'] c']; exact Hc. }
  destruct (str_eqb (strip l) (txt "3")); [exact H|].
  destruct (str_eqb (strip l) (txt "4")).
  { specialize (Hc _ _ re_stock_tidy).
    destruct (run_core re_stock c1) as [[a w'|w'] c']; exact Hc. }
  destruct (str_eqb (strip l) (txt "5")).
  { specialize (Hc _ search_shoe
                  (fun w Hw => eq_ind_r (Forall tidy) Hw
                                 (proj2 (search_shoe_same w)))).
    destruct (run_core search_shoe c1) as [[[found|] w'|w'] c']; exact Hc. }
  destruct (str_eqb (strip l) (txt "6")); [exact H|].
  destruct (str_eqb (strip l) (txt "7")); [exact H|].
  destruct (str_eqb (strip l) (txt "0")); exact H.
Qed.

Lemma tidy_found (shoes : list Shoe) (s : Shoe) (f : file_state)
    (inp : list str) (out : list msg) :
  tidy s -> In s shoes ->
  exists r,
    search_shoe (mkWorld shoes f (code s :: inp) out)
    = Returned (Some r) (mkWorld shoes f inp out)
    /\ code r = code s.
Proof.
  intros (_ & Hc & _) Hs. unfold search_shoe. cbn [shoes_list stdin].
  destruct shoes as [|s0 r0] eqn:E; [destruct Hs|]. rewrite <- E in *.
  rewrite Hc.
  pose proof (scan_code_first (code s) shoes) as Hf.
  destruct (scan_code (code s) shoes) as [r|].
  - destruct Hf as (i & _ & Hr & _). exists r. now split.
  - exfalso. now apply (Hf s Hs).
Qed.

(** X18: in a run of [main] that starts with records free of surrounding
    whitespace (the empty list at the start of the program is such), every
    record of the list stays so, and so every record in the list at the end
    can be reached by Search: entering its code finds a record of that
    code. *)
Theorem main_records_searchable (fuel : nat) :
  forall c fin c',
    Forall tidy (c_shoes c) ->
    main fuel c = Some (fin, c') ->
    Forall tidy (c_shoes c')
    /\ forall s f inp out,
         In s (c_shoes c') ->
         exists r,
           search_shoe (mkWorld (c_shoes c') f (code s :: inp) out)
           = Returned (Some r) (mkWorld (c_shoes c') f inp out)
           /\ code r = code s.
Proof.
  assert (Hmain : forall fuel c fin c',
             Forall tidy (c_shoes c) -> main fuel c = Some (fin, c') ->
             Forall tidy (c_shoes c')).
  { clear fuel. induction fuel as [|fuel IH]; intros c fin c' Ht H;
      [discriminate|].
    simpl in H. pose proof (menu_step_tidy c Ht) as Hs.
    destruct (menu_step c) as [[fin1|] c1]; simpl in Hs.
    - now inversion H; subst.
    - now apply (IH c1 fin c'). }
  intros c fin c' Ht H. pose proof (Hmain fuel c fin c' Ht H) as Ht'.
  split; [exact Ht'|].
  intros s f inp out Hs. apply tidy_found; [|exact Hs].
  rewrite Forall_forall in Ht'. now apply Ht'.
Qed.

End Reach.

Lemma surrounding_space_ignored_witness :
  decode (txt "  " ++ txt "USA,SH001,AirMax,120.5,3" ++ [cr; nl])
  = decode (txt "USA,SH001,AirMax,120.5,3")
  /\ matches (txt "SH001")
       (txt "  " ++ txt "USA,SH001,AirMax,120.5,3" ++ [cr; nl])
     = matches (txt "SH001") (txt "USA,SH001,AirMax,120.5,3")
  /\ blank (txt "  " ++ txt "USA,SH001,AirMax,120.5,3" ++ [cr; nl])
     = blank (txt "USA,SH001,AirMax,120.5,3").
Proof.
  apply (surrounding_space_ignored (txt "  ")
           [cr; nl] (txt "USA,SH001,AirMax,120.5,3") (txt "SH001"));
    repeat constructor.
Defined.

Lemma main_records_searchable_witness :
  Forall tidy (c_shoes (snd demo_session_end))
  /\ forall s f inp out,
       In s (c_shoes (snd demo_session_end)) ->
       exists r,
         search_shoe
           (mkWorld (c_shoes (snd demo_session_end)) f (code s :: inp) out)
         = Returned (Some r)
             (mkWorld (c_shoes (snd demo_session_end)) f inp out)
         /\ code r = code s.
Proof.
  apply (main_records_searchable 8 demo_console (fst demo_session_end)).
  - apply Forall_nil.
  - reflexivity.
Defined.
